(** * Three-body problem simulator: the physics core of [main.py]

    The program integrates three gravitating point masses with a fixed-step
    classical Runge-Kutta scheme and keeps, per body, a bounded trail of past
    positions.  This development embeds the functions of [main.py] and proves
    properties of the force law, the derivative function, the RK4 step, the
    simulation driver and the trajectory deques.

    Numbers.  Every number of the program is a numpy [float64].  The
    arithmetic of numpy is not part of the program, so the embedding takes it
    as an interface ([Float64Ops]) and the functions of [main.py] are written
    once, over any implementation of it.  The implementation given is
    [Binary64]: IEEE-754 binary64 on Rocq's primitive floats, which is what
    the program runs on.  A theorem proved over the interface holds for it.

    Arrays.  A numpy array is an object; two names can refer to one array,
    and a slice or a reshape of an array shows the entries of that array.
    Where only the entries matter, an array is the list of its entries and
    a function of [main.py] is a function on lists.  The derivative function
    and the stepper are also written as commands on a store of array
    objects ([derivatives_cmd], [runge_kutta_step_cmd]), with the in-place
    assignments of the source as writes, and proved to compute what the
    functions on lists compute.

    Exceptions.  A Python function that can raise is a function into
    [outcome]; one that cannot is a total function. *)

From Stdlib Require Import List ZArith Bool Lia PeanoNat.
From Stdlib Require Import Floats.
Import ListNotations.

Set Implicit Arguments.
Set Warnings "-inexact-float".

(* ================================================================== *)
(** ** Outcomes of a call *)

(** The failures a call can end in.  [ValueError] and [IndexError] are the
    exceptions numpy and Python raise on a shape mismatch (or on [int(nan)])
    and on an index out of range, [OverflowError] is what [int] raises on an
    infinity.  [InvalidInput] and [NumericalFailure] are the two failures the
    specification names. *)
Inductive failure : Type :=
| ValueError
| IndexError
| OverflowError
| InvalidInput
| NumericalFailure.

Inductive outcome (A : Type) : Type :=
| Returned (a : A)
| Raised (e : failure).

Arguments Returned {A} a.
Arguments Raised {A} e.

Definition bind {A B : Type} (c : outcome A) (k : A -> outcome B) : outcome B :=
  match c with
  | Returned a => k a
  | Raised e => Raised e
  end.

Declare Scope outcome_scope.
Delimit Scope outcome_scope with outcome.
Notation "x <- c ;; k" := (bind c (fun x => k))
  (at level 61, c at next level, right associativity) : outcome_scope.
Open Scope outcome_scope.

(** [for x in idx: s = body(x, s)], stopping at the first exception. *)
Fixpoint for_each {S : Type} (idx : list nat) (body : nat -> S -> outcome S)
  (s : S) : outcome S :=
  match idx with
  | [] => Returned s
  | i :: rest => s' <- body i s ;; for_each rest body s'
  end.

(** Python's [range(n)]. *)
Definition range (n : nat) : list nat := seq 0 n.

(** [a[i]] on a sequence: [IndexError] out of range. *)
Definition getitem {A : Type} (a : list A) (i : nat) : outcome A :=
  match nth_error a i with
  | Some x => Returned x
  | None => Raised IndexError
  end.

(** [a[i] = x] on a sequence, for an index already known to be in range. *)
Fixpoint setitem {A : Type} (a : list A) (i : nat) (x : A) : list A :=
  match a, i with
  | [], _ => []
  | _ :: t, O => x :: t
  | h :: t, S i' => h :: setitem t i' x
  end.

(** Elementwise binary operation on two arrays of the same length. *)
Fixpoint map2 {A B C : Type} (f : A -> B -> C) (a : list A) (b : list B) : list C :=
  match a, b with
  | x :: a', y :: b' => f x y :: map2 f a' b'
  | _, _ => []
  end.

(* ================================================================== *)
(** ** The arithmetic the program is written over *)

(** The operations of numpy's [float64] that [main.py] uses, and its numeric
    literals. *)
Class Float64Ops (F : Type) : Type := {
  f0 : F;                       (* 0.0, the entries of np.zeros *)
  fadd : F -> F -> F;           (* x + y *)
  fsub : F -> F -> F;           (* x - y *)
  fmul : F -> F -> F;           (* x * y *)
  fdiv : F -> F -> F;           (* x / y *)
  fneg : F -> F;                (* -x *)
  fsqrt : F -> F;               (* the square root inside np.linalg.norm *)
  fpow : F -> nat -> F;         (* x ** n for an int literal n *)
  feqb : F -> F -> bool;        (* x == y *)
  fis_finite : F -> bool;       (* neither NaN nor an infinity *)
  of_int : Z -> F;              (* an int literal used as a float *)
  to_int : F -> outcome Z;      (* int(x): truncation; raises on NaN, infinity *)
  lit_G : F;                    (* 6.67430e-11 *)
  lit_half : F;                 (* 0.5 *)
  lit_mass : F;                 (* 1.989e30 *)
  lit_au : F;                   (* 1.496e11 *)
  lit_v1 : F;                   (* 2.98e4 *)
  lit_v3 : F;                   (* 1e3 *)
  lit_dt : F;                   (* 2e4 *)
  lit_scale : F                 (* 2e9 *)
}.

(* ================================================================== *)
(** ** The physics core *)

Section Physics.

Context {F : Type} `{Float64Ops F}.

(** A row of a [(3, 2)] array: one 2-D vector. *)
Definition vec2 : Type := (F * F)%type.

(** [np.zeros(2)] *)
Definition zeros2 : vec2 := (f0, f0).

(** [np.zeros((3, 2))] *)
Definition zeros_3_2 : list vec2 := [zeros2; zeros2; zeros2].

(** [a - b], [a + b] on two rows. *)
Definition vsub (a b : vec2) : vec2 := (fsub (fst a) (fst b), fsub (snd a) (snd b)).
Definition vadd (a b : vec2) : vec2 := (fadd (fst a) (fst b), fadd (snd a) (snd b)).

(** [-a] on a row. *)
Definition vneg (a : vec2) : vec2 := (fneg (fst a), fneg (snd a)).

(** [c * a] and [a / c] for a scalar [c] and a row [a]. *)
Definition vscale (c : F) (a : vec2) : vec2 := (fmul c (fst a), fmul c (snd a)).
Definition vdiv (a : vec2) (c : F) : vec2 := (fdiv (fst a) c, fdiv (snd a) c).

(** [np.linalg.norm(a)] on a row: the square root of [a.dot(a)]. *)
Definition norm (a : vec2) : F :=
  fsqrt (fadd (fmul (fst a) (fst a)) (fmul (snd a) (snd a))).

(** [gravitational_force(m1, m2, r1, r2)], lines 17-23. *)
Definition gravitational_force (m1 m2 : F) (r1 r2 : vec2) : vec2 :=
  let G := lit_G in
  let r := norm (vsub r2 r1) in
  if feqb r f0 then zeros2
  else vdiv (vscale (fmul (fmul G m1) m2) (vsub r2 r1)) (fpow r 3).

(** [a.reshape((3, 2))] on a 1-D array: [ValueError] unless it has 6 entries. *)
Definition reshape_3_2 (a : list F) : outcome (list vec2) :=
  match a with
  | [x0; y0; x1; y1; x2; y2] => Returned [(x0, y0); (x1, y1); (x2, y2)]
  | _ => Raised ValueError
  end.

(** [a.flatten()] on an array of rows. *)
Fixpoint flatten (a : list vec2) : list F :=
  match a with
  | [] => []
  | (x, y) :: t => x :: y :: flatten t
  end.

(** [forces / masses[:, np.newaxis]]: row [i] of [forces] divided by
    [masses[i]].  A column of one mass is broadcast to every row; any other
    number of masses than the number of rows is a [ValueError]. *)
Definition div_rows (forces : list vec2) (masses : list F) : outcome (list vec2) :=
  if length masses =? length forces then Returned (map2 vdiv forces masses)
  else match masses with
       | [m] => Returned (map (fun f => vdiv f m) forces)
       | _ => Raised ValueError
       end.

(** The body of the inner loop of [derivatives], lines 32-33. *)
Definition force_body (masses : list F) (positions : list vec2) (i j : nat)
  (forces : list vec2) : outcome (list vec2) :=
  if negb (i =? j) then
    mi <- getitem masses i ;;
    mj <- getitem masses j ;;
    pi <- getitem positions i ;;
    pj <- getitem positions j ;;
    fi <- getitem forces i ;;
    Returned (setitem forces i (vadd fi (gravitational_force mi mj pi pj)))
  else Returned forces.

(** The two nested loops of [derivatives], lines 28-33. *)
Definition force_loops (masses : list F) (positions : list vec2) : outcome (list vec2) :=
  for_each (range 3)
    (fun i forces => for_each (range 3) (force_body masses positions i) forces)
    zeros_3_2.

(** [derivatives(state, masses)], lines 25-38. *)
Definition derivatives (state masses : list F) : outcome (list F) :=
  positions <- reshape_3_2 (firstn 6 state) ;;
  velocities <- reshape_3_2 (skipn 6 state) ;;
  forces <- force_loops masses positions ;;
  accel <- div_rows forces masses ;;
  Returned (flatten velocities ++ flatten accel).

(** Elementwise operations on 1-D arrays. *)
Definition arr_add (a b : list F) : list F := map2 fadd a b.
Definition arr_mul_scalar (a : list F) (c : F) : list F := map (fun x => fmul x c) a.
Definition scalar_mul_arr (c : F) (a : list F) : list F := map (fun x => fmul c x) a.
Definition arr_div_scalar (a : list F) (c : F) : list F := map (fun x => fdiv x c) a.

(** [runge_kutta_step(state, masses, dt)], lines 40-45.  Every array that is
    added here has the length of [state]: [derivatives] raises otherwise. *)
Definition runge_kutta_step (state masses : list F) (dt : F) : outcome (list F) :=
  d1 <- derivatives state masses ;;
  let k1 := arr_mul_scalar d1 dt in
  d2 <- derivatives (arr_add state (scalar_mul_arr lit_half k1)) masses ;;
  let k2 := arr_mul_scalar d2 dt in
  d3 <- derivatives (arr_add state (scalar_mul_arr lit_half k2)) masses ;;
  let k3 := arr_mul_scalar d3 dt in
  d4 <- derivatives (arr_add state k3) masses ;;
  let k4 := arr_mul_scalar d4 dt in
  Returned
    (arr_add state
       (arr_div_scalar
          (arr_add (arr_add (arr_add k1 (scalar_mul_arr (of_int 2) k2))
                             (scalar_mul_arr (of_int 2) k3)) k4)
          (of_int 6))).

(** [np.hstack((positions.flatten(), velocities.flatten()))], line 51. *)
Definition pack_state (positions velocities : list vec2) : list F :=
  flatten positions ++ flatten velocities.

(** [initialize_simulation()], lines 47-53: it takes no argument. *)
Definition initialize_simulation : list F * list F * F :=
  let masses := [lit_mass; lit_mass; lit_mass] in
  let positions := [(lit_au, of_int 0); (fneg lit_au, of_int 0); (of_int 0, of_int 0)] in
  let velocities := [(of_int 0, lit_v1); (of_int 0, fneg lit_v1); (of_int 0, lit_v3)] in
  let state := pack_state positions velocities in
  let dt := lit_dt in
  (masses, state, dt).

(** [update_simulation(state, masses, dt)], lines 55-58. *)
Definition update_simulation (state masses : list F) (dt : F)
  : outcome (list F * list vec2) :=
  new_state <- runge_kutta_step state masses dt ;;
  positions <- reshape_3_2 (firstn 6 new_state) ;;
  Returned (new_state, positions).

End Physics.

(* ================================================================== *)
(** ** Arrays as objects: the stepper on a store

    [derivatives] and [runge_kutta_step] once more, this time on array
    objects in a store.  Each statement of lines 25-45 that assigns into an
    existing array ([forces[i] += ...], [dydt[:6] = ...], [dydt[6:] = ...])
    is a [write]; [state[:6].reshape] and [state[6:].reshape] are views,
    which are read when a row of them is used.  In [runge_kutta_step] every
    array is an object: the results of [derivatives] and of each arithmetic
    operator.  In [derivatives] the arrays [forces] and [dydt] are objects;
    the arrays that [gravitational_force] and the right-hand sides of lines
    36 and 37 create are used once, by the statement that creates them, and
    are kept as values. *)

Section Store.

Context {F : Type} `{Float64Ops F}.

(** A reference to an array object, and the store: the entries of every
    array object allocated so far, in the order of allocation. *)
Definition ref : Type := nat.
Definition store : Type := list (list F).

(** The entries of the object [p] refers to. *)
Definition sel (p : ref) (st : store) : list F := nth p st [].

(** A command runs in a store; it raises, or returns a value and the store
    it leaves. *)
Definition cmd (A : Type) : Type := store -> outcome (A * store).

Definition ret {A : Type} (a : A) : cmd A := fun st => Returned (a, st).

Definition seq_cmd {A B : Type} (c : cmd A) (k : A -> cmd B) : cmd B :=
  fun st =>
    match c st with
    | Returned (a, st') => k a st'
    | Raised e => Raised e
    end.

(** A computation on values, which touches no object. *)
Definition lift {A : Type} (c : outcome A) : cmd A :=
  fun st =>
    match c with
    | Returned a => Returned (a, st)
    | Raised e => Raised e
    end.

(** A new array object with the entries [a]: [np.zeros], and the result of
    every arithmetic operation on arrays. *)
Definition new (a : list F) : cmd ref :=
  fun st => Returned (length st, st ++ [a]).

(** Reading the entries of an object. *)
Definition entries (p : ref) : cmd (list F) :=
  fun st => Returned (sel p st, st).

(** [a] with the entries from [off] on overwritten by [vals]. *)
Definition splice (a : list F) (off : nat) (vals : list F) : list F :=
  firstn off a ++ vals ++ skipn (off + length vals) a.

(** Writing into an object in place: [p[off : off + len(vals)] = vals]. *)
Definition write (p : ref) (off : nat) (vals : list F) : cmd unit :=
  fun st => Returned (tt, setitem st p (splice (sel p st) off vals)).

End Store.

Declare Scope cmd_scope.
Delimit Scope cmd_scope with cmd.
Notation "x <~ c ;; k" := (seq_cmd c (fun x => k))
  (at level 61, c at next level, right associativity) : cmd_scope.

Section StoreProgram.

Context {F : Type} `{Float64Ops F}.

Local Open Scope cmd_scope.

(** [for i in idx: body(i)] on the store. *)
Fixpoint for_cmd (idx : list nat) (body : nat -> cmd (F := F) unit) : cmd (F := F) unit :=
  match idx with
  | [] => ret tt
  | i :: rest => _ <~ body i ;; for_cmd rest body
  end.

(** A [(3, 2)] view of an object: [a[:6].reshape((3, 2))] and
    [a[6:].reshape((3, 2))] share the entries of [a]; [window] selects the
    six entries the view shows. *)
Record view : Type := View { base : ref; window : list F -> list F }.

(** Making the view: [ValueError] unless the window has six entries. *)
Definition reshape_view (p : ref) (w : list F -> list F) : cmd view :=
  a <~ entries p ;;
  _ <~ lift (reshape_3_2 (w a)) ;;
  ret (View p w).

(** The rows a view shows, read from the object when they are asked for. *)
Definition rows (v : view) : cmd (list (@vec2 F)) :=
  a <~ entries (base v) ;; lift (reshape_3_2 (window v a)).

(** [v[i]] *)
Definition row (v : view) (i : nat) : cmd (@vec2 F) :=
  rs <~ rows v ;; lift (getitem rs i).

(** [masses[i]] *)
Definition item (p : ref) (i : nat) : cmd F :=
  a <~ entries p ;; lift (getitem a i).

(** The body of the inner loop of [derivatives], lines 32-33:
    [forces[i] += gravitational_force(...)] adds in place. *)
Definition force_body_cmd (masses : ref) (positions : view) (forces : ref)
  (i j : nat) : cmd unit :=
  if negb (i =? j) then
    mi <~ item masses i ;;
    mj <~ item masses j ;;
    pi <~ row positions i ;;
    pj <~ row positions j ;;
    fi <~ row (View forces (fun a => a)) i ;;
    let f := vadd fi (gravitational_force mi mj pi pj) in
    write forces (2 * i) [fst f; snd f]
  else ret tt.

(** [derivatives(state, masses)], lines 25-38, on the store. *)
Definition derivatives_cmd (state masses : ref) : cmd ref :=
  positions <~ reshape_view state (firstn 6) ;;
  velocities <~ reshape_view state (skipn 6) ;;
  forces <~ new (flatten zeros_3_2) ;;
  _ <~ for_cmd (range 3)
         (fun i => for_cmd (range 3) (force_body_cmd masses positions forces i)) ;;
  dydt <~ new (repeat f0 12) ;;
  vs <~ rows velocities ;;
  _ <~ write dydt 0 (flatten vs) ;;
  fs <~ rows (View forces (fun a => a)) ;;
  ms <~ entries masses ;;
  accel <~ lift (div_rows fs ms) ;;
  _ <~ write dydt 6 (flatten accel) ;;
  ret dydt.

(** [a * c], [c * a], [a + b], [a / c] on arrays: each returns a new object. *)
Definition mul_scalar_cmd (p : ref) (c : F) : cmd ref :=
  a <~ entries p ;; new (arr_mul_scalar a c).
Definition scalar_mul_cmd (c : F) (p : ref) : cmd ref :=
  a <~ entries p ;; new (scalar_mul_arr c a).
Definition add_cmd (p q : ref) : cmd ref :=
  a <~ entries p ;; b <~ entries q ;; new (arr_add a b).
Definition div_scalar_cmd (p : ref) (c : F) : cmd ref :=
  a <~ entries p ;; new (arr_div_scalar a c).

(** [runge_kutta_step(state, masses, dt)], lines 40-45, on the store. *)
Definition runge_kutta_step_cmd (state masses : ref) (dt : F) : cmd ref :=
  d1 <~ derivatives_cmd state masses ;;
  k1 <~ mul_scalar_cmd d1 dt ;;
  h1 <~ scalar_mul_cmd lit_half k1 ;;
  s1 <~ add_cmd state h1 ;;
  d2 <~ derivatives_cmd s1 masses ;;
  k2 <~ mul_scalar_cmd d2 dt ;;
  h2 <~ scalar_mul_cmd lit_half k2 ;;
  s2 <~ add_cmd state h2 ;;
  d3 <~ derivatives_cmd s2 masses ;;
  k3 <~ mul_scalar_cmd d3 dt ;;
  s3 <~ add_cmd state k3 ;;
  d4 <~ derivatives_cmd s3 masses ;;
  k4 <~ mul_scalar_cmd d4 dt ;;
  t2 <~ scalar_mul_cmd (of_int 2) k2 ;;
  a2 <~ add_cmd k1 t2 ;;
  t3 <~ scalar_mul_cmd (of_int 2) k3 ;;
  a3 <~ add_cmd a2 t3 ;;
  a4 <~ add_cmd a3 k4 ;;
  q <~ div_scalar_cmd a4 (of_int 6) ;;
  add_cmd state q.

(** The store while the loops of [derivatives] run: what was there, and
    the object [forces]. *)
Definition forces_in (st0 : store (F := F)) (forces : list (@vec2 F)) (st : store (F := F))
  : Prop :=
  length forces = 3 /\ st = st0 ++ [flatten forces].

End StoreProgram.

Arguments sel : simpl never.

(* ================================================================== *)
(** ** IEEE-754 binary64: the arithmetic the program runs on

    Each of [+], [-], [*], [/], the square root and [==] of numpy is the one
    correctly rounded IEEE-754 operation on Rocq's primitive floats (which
    have a single NaN).  [np.linalg.norm] of a row is the square root of the
    two products added; [**] is the one operation that is modelled, see
    [float_pow]. *)

Module Binary64.

Local Open Scope float_scope.

(** An int literal as a float. *)
Definition float_of_int (z : Z) : float :=
  match z with
  | Z0 => 0
  | Zpos _ => PrimFloat.of_uint63 (Uint63.of_Z z)
  | Zneg p => - PrimFloat.of_uint63 (Uint63.of_Z (Zpos p))
  end.

(** [x ** n].  numpy hands the power to the C library's [pow], which is not
    part of the program; it is modelled by repeated multiplication, which
    agrees with [pow] wherever the power is exact (at 0 and at 1, where the
    statements below evaluate the force on binary64) and can differ from it
    in the last digit elsewhere. *)
Fixpoint float_pow (x : float) (n : nat) : float :=
  match n with
  | O => 1
  | S n' => x * float_pow x n'
  end.

(** Neither NaN nor an infinity. *)
Definition float_is_finite (x : float) : bool :=
  match Prim2SF x with
  | S754_nan | S754_infinity _ => false
  | S754_zero _ | S754_finite _ _ _ => true
  end.

(** [int(x)]: the integer part of [x], rounded toward zero. *)
Definition float_to_int (x : float) : outcome Z :=
  match Prim2SF x with
  | S754_zero _ => Returned 0%Z
  | S754_infinity _ => Raised OverflowError
  | S754_nan => Raised ValueError
  | S754_finite s m e =>
      let v := (if 0 <=? e then Zpos m * 2 ^ e else Zpos m / 2 ^ (- e))%Z in
      Returned (if s then (- v)%Z else v)
  end.

#[export] Instance ops : Float64Ops float := {|
  f0 := 0;
  fadd := PrimFloat.add;
  fsub := PrimFloat.sub;
  fmul := PrimFloat.mul;
  fdiv := PrimFloat.div;
  fneg := PrimFloat.opp;
  fsqrt := PrimFloat.sqrt;
  fpow := float_pow;
  feqb := PrimFloat.eqb;
  fis_finite := float_is_finite;
  of_int := float_of_int;
  to_int := float_to_int;
  lit_G := 6.67430e-11;
  lit_half := 0.5;
  lit_mass := 1.989e30;
  lit_au := 1.496e11;
  lit_v1 := 2.98e4;
  lit_v3 := 1e3;
  lit_dt := 2e4;
  lit_scale := 2e9
|}.

(** The same arithmetic with any function [pow] in the place of [**]:
    [ops] is [ops_with float_pow].  What is proved of [ops_with pow] for
    every [pow] does not depend on how [**] is modelled. *)
Definition ops_with (pow : float -> nat -> float) : Float64Ops float := {|
  f0 := 0;
  fadd := PrimFloat.add;
  fsub := PrimFloat.sub;
  fmul := PrimFloat.mul;
  fdiv := PrimFloat.div;
  fneg := PrimFloat.opp;
  fsqrt := PrimFloat.sqrt;
  fpow := pow;
  feqb := PrimFloat.eqb;
  fis_finite := float_is_finite;
  of_int := float_of_int;
  to_int := float_to_int;
  lit_G := 6.67430e-11;
  lit_half := 0.5;
  lit_mass := 1.989e30;
  lit_au := 1.496e11;
  lit_v1 := 2.98e4;
  lit_v3 := 1e3;
  lit_dt := 2e4;
  lit_scale := 2e9
|}.

End Binary64.

(* ================================================================== *)
(** ** Trajectory history: [collections.deque] with a [maxlen] *)

Section Deque.

Context {A : Type}.

(** A deque: its entries, oldest first, and its [maxlen] ([None]: unbounded). *)
Record deque : Type := Deque { items : list A; maxlen : option nat }.

(** [deque(maxlen=n)] *)
Definition deque_new (n : nat) : deque := Deque [] (Some n).

(** [len(d)] *)
Definition deque_len (d : deque) : nat := length (items d).

(** [d.append(x)]: the entry is added on the right; a bounded deque that
    has grown past its [maxlen] drops its leftmost entry. *)
Definition deque_append (d : deque) (x : A) : deque :=
  let l := items d ++ [x] in
  match maxlen d with
  | Some n => if n <? length l then Deque (tl l) (maxlen d) else Deque l (maxlen d)
  | None => Deque l (maxlen d)
  end.

(** [d.popleft()]: [IndexError] on an empty deque. *)
Definition deque_popleft (d : deque) : outcome (A * deque) :=
  match items d with
  | [] => Raised IndexError
  | x :: rest => Returned (x, Deque rest (maxlen d))
  end.

(** Lines 79-80 of [draw_simulation] on one trajectory: the deque after the
    guarded [popleft], and whether the [popleft] was executed. *)
Definition evict_if_longer (max_orbit_length : nat) (d : deque) : outcome (deque * bool) :=
  if max_orbit_length <? deque_len d then
    r <- deque_popleft d ;; Returned (snd r, true)
  else Returned (d, false).

(** What one frame of the main loop does to the trajectory of one body:
    line 107, then lines 79-80. *)
Definition record_position (max_orbit_length : nat) (d : deque) (x : A) : outcome deque :=
  r <- evict_if_longer max_orbit_length (deque_append d x) ;; Returned (fst r).

(** One [record_position] per entry of [xs], in order. *)
Fixpoint record_positions (max_orbit_length : nat) (d : deque) (xs : list A) : outcome deque :=
  match xs with
  | [] => Returned d
  | x :: rest => d' <- record_position max_orbit_length d x ;;
                 record_positions max_orbit_length d' rest
  end.

End Deque.

Arguments deque A : clear implicits.

(* ================================================================== *)
(** ** Rendering and the main loop *)

(** The colours [draw_simulation] uses. *)
Inductive colour : Type := BLACK | GREY | GREEN | RED | AQUA.

(** The pygame calls of [draw_simulation], in the order they are issued. *)
Inductive draw_cmd : Type :=
| Fill (c : colour)
| Lines (c : colour) (closed : bool) (points : list (Z * Z)) (width : Z)
| Circle (c : colour) (centre : Z * Z) (radius : Z)
| Flip.

(** [[f(x) for x in xs]] for an [f] that can raise. *)
Fixpoint map_outcome {A B : Type} (f : A -> outcome B) (xs : list A) : outcome (list B) :=
  match xs with
  | [] => Returned []
  | x :: rest => y <- f x ;; ys <- map_outcome f rest ;; Returned (y :: ys)
  end.

Section Driver.

Context {F : Type} `{Float64Ops F}.

(** [to_screen_coords(position, WIDTH, HEIGHT, SCALE)], lines 12-15. *)
Definition to_screen_coords (position : @vec2 F) (WIDTH HEIGHT : Z) (SCALE : F)
  : outcome (Z * Z) :=
  ix <- to_int (fdiv (fst position) SCALE) ;;
  iy <- to_int (fdiv (snd position) SCALE) ;;
  Returned ((WIDTH / 2 + ix)%Z, (HEIGHT / 2 - iy)%Z).

(** What [draw_simulation] threads through its loop: the pygame calls
    issued so far, the trajectories, and how many times line 80 (the
    [popleft]) has been executed. *)
Record draw_state : Type := DrawState {
  ds_screen : list draw_cmd;
  ds_trajectories : list (deque (@vec2 F));
  ds_poplefts : nat
}.

Definition body_colour (i : nat) : colour :=
  if i =? 0 then GREEN else if i =? 1 then RED else AQUA.

(** The body of the loop of [draw_simulation], lines 73-87. *)
Definition draw_body (positions : list (@vec2 F)) (WIDTH HEIGHT : Z) (SCALE : F)
  (max_orbit_length : nat) (i : nat) (st : draw_state) : outcome draw_state :=
  p <- getitem positions i ;;
  xy <- to_screen_coords p WIDTH HEIGHT SCALE ;;
  t <- getitem (ds_trajectories st) i ;;
  screen1 <- (if 2 <? deque_len t then
                orbit_points <- map_outcome
                  (fun pos => to_screen_coords pos WIDTH HEIGHT SCALE) (items t) ;;
                Returned (ds_screen st ++ [Lines GREY false orbit_points 1%Z])
              else Returned (ds_screen st)) ;;
  r <- evict_if_longer max_orbit_length t ;;
  let trajs1 := if snd r then setitem (ds_trajectories st) i (fst r)
                else ds_trajectories st in
  let pops1 := if snd r then S (ds_poplefts st) else ds_poplefts st in
  Returned (DrawState (screen1 ++ [Circle (body_colour i) xy 7%Z]) trajs1 pops1).

(** [draw_simulation(screen, positions, earth_trajectories, WIDTH, HEIGHT,
    SCALE, max_orbit_length)], lines 60-89. *)
Definition draw_simulation (st : draw_state) (positions : list (@vec2 F))
  (WIDTH HEIGHT : Z) (SCALE : F) (max_orbit_length : nat) : outcome draw_state :=
  let st0 := DrawState (ds_screen st ++ [Fill BLACK]) (ds_trajectories st)
               (ds_poplefts st) in
  st1 <- for_each (range 3) (draw_body positions WIDTH HEIGHT SCALE max_orbit_length) st0 ;;
  Returned (DrawState (ds_screen st1 ++ [Flip]) (ds_trajectories st1) (ds_poplefts st1)).

(** The loop of lines 106-107: each body's new position is appended to its
    trajectory. *)
Definition append_positions (positions : list (@vec2 F))
  (trajs : list (deque (@vec2 F))) : outcome (list (deque (@vec2 F))) :=
  for_each (range 3)
    (fun i trajs =>
       p <- getitem positions i ;;
       t <- getitem trajs i ;;
       Returned (setitem trajs i (deque_append t p)))
    trajs.

(** The variables of [main] that change from one iteration to the next. *)
Record world : Type := World {
  w_state : list F;
  w_draw : draw_state
}.

(** The variables of [main] that are set once, before the loop. *)
Record config : Type := Config {
  c_WIDTH : Z;
  c_HEIGHT : Z;
  c_SCALE : F;
  c_masses : list F;
  c_dt : F;
  c_max_orbit_length : nat
}.

(** One iteration of the [while] loop of [main], lines 104-109. *)
Definition main_iteration (c : config) (w : world) : outcome world :=
  r <- update_simulation (w_state w) (c_masses c) (c_dt c) ;;
  trajs <- append_positions (snd r) (ds_trajectories (w_draw w)) ;;
  st <- draw_simulation
          (DrawState (ds_screen (w_draw w)) trajs (ds_poplefts (w_draw w)))
          (snd r) (c_WIDTH c) (c_HEIGHT c) (c_SCALE c) (c_max_orbit_length c) ;;
  Returned (World (fst r) st).

(** [n] iterations of the loop. *)
Fixpoint iterate (c : config) (n : nat) (w : world) : outcome world :=
  match n with
  | O => Returned w
  | S n' => w' <- main_iteration c w ;; iterate c n' w'
  end.

(** The set-up of [main], lines 92-96, for a given [max_orbit_length]. *)
Definition main_setup (max_orbit_length : nat) : config * world :=
  let '(masses, state, dt) := initialize_simulation in
  (Config 800 800 lit_scale masses dt max_orbit_length,
   World state
     (DrawState [] (map (fun _ => deque_new max_orbit_length) (range 3)) 0)).

(** [main] after [n] iterations of its loop; line 95 sets
    [max_orbit_length = 1000]. *)
Definition main (n : nat) : outcome world :=
  let '(c, w) := main_setup 1000 in iterate c n w.

End Driver.

(* ================================================================== *)
(** ** The formulas of the specification *)

Section Specification.

Context {F : Type} `{Float64Ops F}.

(** Section 4.1: [G*m1*m2*(r2 - r1) / |r2 - r1|^3]. *)
Definition newton_formula (m1 m2 : F) (r1 r2 : @vec2 F) : @vec2 F :=
  vdiv (vscale (fmul (fmul lit_G m1) m2) (vsub r2 r1)) (fpow (norm (vsub r2 r1)) 3).

(** Section 3, the layout of a state vector: body [i] has its position at
    entries [2i], [2i+1] and its velocity at entries [6+2i], [6+2i+1]. *)
Definition position_of (state : list F) (i : nat) : @vec2 F :=
  (nth (2 * i) state f0, nth (2 * i + 1) state f0).
Definition velocity_of (state : list F) (i : nat) : @vec2 F :=
  (nth (6 + 2 * i) state f0, nth (6 + 2 * i + 1) state f0).
Definition mass_of (masses : list F) (i : nat) : F := nth i masses f0.

(** Section 4.2: [Force(i,j)], the bodies [j] other than [i], the net force
    on body [i] summed over them, and its acceleration. *)
Definition force_between (state masses : list F) (i j : nat) : @vec2 F :=
  gravitational_force (mass_of masses i) (mass_of masses j)
    (position_of state i) (position_of state j).
Definition others (i : nat) : list nat :=
  filter (fun j => negb (j =? i)) (range 3).
Definition net_force (state masses : list F) (i : nat) : @vec2 F :=
  fold_left vadd (map (force_between state masses i) (others i)) zeros2.
Definition acceleration_of (state masses : list F) (i : nat) : @vec2 F :=
  vdiv (net_force state masses i) (mass_of masses i).

(** Section 4.3: [k/2], [2*k], and
    [s + (k1 + 2*k2 + 2*k3 + k4) / 6]. *)
Definition halved (k : list F) : list F := arr_div_scalar k (of_int 2).
Definition doubled (k : list F) : list F := scalar_mul_arr (of_int 2) k.
Definition rk4_combine (s k1 k2 k3 k4 : list F) : list F :=
  arr_add s
    (arr_div_scalar (arr_add (arr_add (arr_add k1 (doubled k2)) (doubled k3)) k4)
       (of_int 6)).

(** Section 6: some component is NaN or an infinity. *)
Definition has_nonfinite (a : list F) : bool :=
  existsb (fun x => negb (fis_finite x)) a.

(** The failures the physics core raises: numpy's on an array of the wrong
    shape and Python's on an index out of range. *)
Definition shape_failure (e : failure) : bool :=
  match e with
  | ValueError | IndexError => true
  | OverflowError | InvalidInput | NumericalFailure => false
  end.

Definition raises_only (ok : failure -> bool) {A : Type} (c : outcome A) : Prop :=
  match c with
  | Returned _ => True
  | Raised e => ok e = true
  end.

(** The last [n] entries of a sequence, in order. *)
Definition lastn {A : Type} (n : nat) (l : list A) : list A :=
  skipn (length l - n) l.

(** A trajectory as [main] keeps it: bounded by [max_orbit_length]. *)
Definition bounded_by {A : Type} (max_orbit_length : nat) (d : deque A) : Prop :=
  maxlen d = Some max_orbit_length /\ deque_len d <= max_orbit_length.

(** What holds of the variables of [main] at the head of its loop: every
    trajectory is bounded and line 80 has never been executed. *)
Definition loop_invariant (max_orbit_length : nat) (st : @draw_state F) : Prop :=
  Forall (bounded_by max_orbit_length) (ds_trajectories st) /\ ds_poplefts st = 0.

End Specification.

(** Two binary64 numbers that are equal as numpy compares them ([a == b],
    under which [0.0] and [-0.0] are equal), or are both NaN. *)
Definition same_number (a b : float) : Prop :=
  PrimFloat.eqb a b = true \/ (Prim2SF a = S754_nan /\ Prim2SF b = S754_nan).

(** [b] is [-a], or both are zeros (of any signs). *)
Definition mirrored (a b : float) : Prop :=
  Prim2SF b = SFopp (Prim2SF a) \/
  ((exists s, Prim2SF a = S754_zero s) /\ (exists s, Prim2SF b = S754_zero s)).

(* ================================================================== *)
(** ** Concrete inputs, on binary64 *)

Module Samples.

Local Open Scope float_scope.

(** The initial conditions of [initialize_simulation]. *)
Definition masses0 : list float :=
  [1.989e30; 1.989e30; 1.989e30].
Definition positions0 : list (float * float) :=
  [(1.496e11, 0); (-1.496e11, 0); (0, 0)].
Definition velocities0 : list (float * float) :=
  [(0, 2.98e4); (0, -2.98e4); (0, 1e3)].
Definition state0 : list float :=
  [1.496e11; 0; -1.496e11; 0; 0; 0; 0; 2.98e4; 0; -2.98e4; 0; 1e3].

(** Earth and Moon, one metre apart. *)
Definition m_earth : float := 5.972e24.
Definition m_moon : float := 7.348e22.
Definition origin : float * float := (0, 0).
Definition east : float * float := (1, 0).

(** Two distinct positions whose distance underflows. *)
Definition near_origin : float * float := (1e-200, 0).

(** A position with an infinite coordinate. *)
Definition far_away : float * float := (infinity, 0).

(** Three coincident bodies of unit mass moving together at 1e308 m/s. *)
Definition fast_state : list float :=
  [0; 0; 0; 0; 0; 0; 1e308; 0; 1e308; 0; 1e308; 0].
Definition unit_masses : list float := [1; 1; 1].

End Samples.

(* ================================================================== *)
(** ** Quantities the further properties speak of *)

Section Quantities.

Context {F : Type} `{Float64Ops F}.

(** A trajectory after lines 79-80: without its oldest entry when it has
    more than [max_orbit_length] entries, unchanged otherwise. *)
Definition evicted_once (max_orbit_length : nat) (d : deque (@vec2 F))
  : deque (@vec2 F) :=
  if max_orbit_length <? deque_len d then Deque (tl (items d)) (maxlen d) else d.

(** How many of the trajectories are longer than [max_orbit_length]. *)
Definition count_longer (max_orbit_length : nat) (trajs : list (deque (@vec2 F))) : nat :=
  length (filter (fun d => max_orbit_length <? deque_len d) trajs).

(** The trail [draw_simulation] draws for one trajectory [t], lines 75-77:
    one [Lines] call through the screen coordinates of its positions when it
    has more than two, nothing otherwise. *)
Definition trail_drawn (WIDTH HEIGHT : Z) (SCALE : F) (t : deque (@vec2 F))
  (cmds : list draw_cmd) : Prop :=
  if 2 <? deque_len t then
    exists points,
      map_outcome (fun pos => to_screen_coords pos WIDTH HEIGHT SCALE) (items t)
      = Returned points /\
      cmds = [Lines GREY false points 1%Z]
  else cmds = [].

(** The state vectors of [n] successive calls of [runge_kutta_step], the
    first on [state], each next one on what the one before returned. *)
Fixpoint orbit (masses : list F) (dt : F) (n : nat) (state : list F)
  : outcome (list (list F)) :=
  match n with
  | O => Returned []
  | S n' => state' <- runge_kutta_step state masses dt ;;
            rest <- orbit masses dt n' state' ;;
            Returned (state' :: rest)
  end.

(** The point of the screen opposite to [xy] with respect to the centre
    [(WIDTH // 2, HEIGHT // 2)]. *)
Definition opposite (WIDTH HEIGHT : Z) (xy : Z * Z) : Z * Z :=
  ((2 * (WIDTH / 2) - fst xy)%Z, (2 * (HEIGHT / 2) - snd xy)%Z).

(** The outcome of a call with [f] applied to what it returned. *)
Definition outcome_map {A B : Type} (f : A -> B) (c : outcome A) : outcome B :=
  match c with
  | Returned a => Returned (f a)
  | Raised e => Raised e
  end.

End Quantities.

(** Further concrete inputs. *)
Module MoreSamples.

Local Open Scope float_scope.

(** Three trajectories as [draw_simulation] can be given them: one longer
    than a bound of 1, two within it. *)
Definition long_trajectories : list (deque (float * float)) :=
  [Deque [(1, 1); (2, 2); (3, 3)] None; Deque [(4, 4)] (Some 1%nat); Deque [] (Some 1%nat)].
Definition three_positions : list (float * float) := [(0, 0); (2e9, 0); (0, -4e9)].
Definition frame_state : @draw_state float := DrawState [] long_trajectories 0.

(** A store holding the initial state vector and the masses. *)
Definition store0 : store (F := float) := [Samples.state0; Samples.masses0].

End MoreSamples.

(* ================================================================== *)
(** * Properties *)

(** ** Shapes *)

Section Shapes.

Context {F : Type} `{Float64Ops F}.

Lemma length_12 (s : list F) : length s = 12 ->
  exists a0 a1 a2 a3 a4 a5 a6 a7 a8 a9 a10 a11,
    s = [a0; a1; a2; a3; a4; a5; a6; a7; a8; a9; a10; a11].
Proof.
  intros Hs.
  do 12 (destruct s as [|? s]; [discriminate Hs|]).
  destruct s; [|discriminate Hs].
  repeat eexists.
Qed.

Lemma length_3 (m : list F) : length m = 3 -> exists m0 m1 m2, m = [m0; m1; m2].
Proof.
  intros Hm.
  do 3 (destruct m as [|? m]; [discriminate Hm|]).
  destruct m; [|discriminate Hm].
  repeat eexists.
Qed.

Lemma map2_length {A B C : Type} (f : A -> B -> C) (a : list A) (b : list B) :
  length (map2 f a b) = Nat.min (length a) (length b).
Proof.
  revert b. induction a as [|x a IH]; intros [|y b]; simpl; auto.
Qed.

Lemma arr_add_length (a b : list F) (n : nat) :
  length a = n -> length b = n -> length (arr_add a b) = n.
Proof.
  intros Ha Hb. unfold arr_add. rewrite map2_length, Ha, Hb. apply Nat.min_id.
Qed.

Lemma arr_mul_scalar_length (a : list F) (c : F) :
  length (arr_mul_scalar a c) = length a.
Proof. apply length_map. Qed.

Lemma arr_div_scalar_length (a : list F) (c : F) :
  length (arr_div_scalar a c) = length a.
Proof. apply length_map. Qed.

(** On a state of 12 entries and 3 masses [derivatives] raises nothing and
    returns 12 entries. *)
Lemma derivatives_returns (state masses : list F) :
  length state = 12 -> length masses = 3 ->
  exists dydt, derivatives state masses = Returned dydt /\ length dydt = 12.
Proof.
  intros Hs Hm.
  apply length_12 in Hs
    as (a0 & a1 & a2 & a3 & a4 & a5 & a6 & a7 & a8 & a9 & a10 & a11 & ->).
  apply length_3 in Hm as (m0 & m1 & m2 & ->).
  eexists. split; reflexivity.
Qed.

(** Where halving by [0.5 *] and by [/ 2] agree, [0.5 * k] is [k / 2]. *)
Lemma half_is_halved (k : list F) :
  (forall x, fmul lit_half x = fdiv x (of_int 2)) ->
  scalar_mul_arr lit_half k = halved k.
Proof. intros Hh. apply map_ext. exact Hh. Qed.

End Shapes.

(** ** Binary64 arithmetic *)

Section Binary64Facts.

Local Open Scope Z_scope.

(** A valid finite float has a canonical mantissa and a bounded exponent. *)
Lemma bounded_facts (m : positive) (e : Z) :
  SpecFloat.bounded prec emax m e = true ->
  Z.max (Z.pos (digits2_pos m) + e - 53) (-1074) = e /\ e <= 971.
Proof.
  unfold SpecFloat.bounded, canonical_mantissa, fexp, emin.
  change prec with 53. change emax with 1024.
  intros Hb. apply andb_true_iff in Hb as [Hc He].
  apply Z.eqb_eq in Hc. apply Z.leb_le in He. split; [exact Hc|exact He].
Qed.

(** Multiplying a mantissa by [2^52] adds 52 binary digits. *)
Lemma digits_shift52 (m : positive) :
  Z.pos (digits2_pos (4503599627370496 * m)) = Z.pos (digits2_pos m) + 52.
Proof.
  cbn [Pos.mul digits2_pos]. change PosDef.Pos.succ with Pos.succ. lia.
Qed.

(** The first rounding shift of [0.5 * x]: the mantissa of [x] with the
    exponent lowered by one, or, at the least exponent, shifted by one bit. *)
Lemma mul_half_shr (m : positive) (e : Z) :
  SpecFloat.bounded prec emax m e = true ->
  shr_fexp prec emax (Z.pos (4503599627370496 * m)) (-53 + e) loc_Exact
  = if e =? -1074 then (shr_1 (Build_shr_record (Z.pos m) false false), -1074)
    else (Build_shr_record (Z.pos m) false false, e - 1).
Proof.
  intros Hb. apply bounded_facts in Hb as [Hc He].
  unfold shr_fexp. cbn [Zdigits2]. rewrite digits_shift52.
  unfold fexp, emin. change prec with 53. change emax with 1024.
  cbn [shr_record_of_loc].
  destruct (e =? -1074) eqn:E.
  - apply Z.eqb_eq in E. subst e.
    replace (Z.max (Z.pos (digits2_pos m) + 52 + (-53 + -1074) - 53) (3 - 1024 - 53) - (-53 + -1074)) with 53 by lia.
    reflexivity.
  - apply Z.eqb_neq in E.
    replace (Z.max (Z.pos (digits2_pos m) + 52 + (-53 + e) - 53) (3 - 1024 - 53) - (-53 + e)) with 52 by lia.
    unfold shr. cbn [Pos.mul iter_pos shr_1]. f_equal. lia.
Qed.

Lemma div_eucl_pair (a b : Z) : Z.div_eucl a b = (a / b, a mod b).
Proof. unfold Z.div, Z.modulo. destruct (Z.div_eucl a b); reflexivity. Qed.

Lemma div_mod_by (a b q r : Z) :
  a = b * q + r -> 0 <= r < b -> Z.div_eucl a b = (q, r).
Proof.
  intros Ha Hr. rewrite div_eucl_pair. f_equal.
  - symmetry. apply (Z.div_unique a b q r); [left; exact Hr|exact Ha].
  - symmetry. apply (Z.mod_unique a b q r); [left; exact Hr|exact Ha].
Qed.

Lemma shr_fexp_small (z : Z) (l : location) :
  Zdigits2 z <= 53 ->
  shr_fexp 53 1024 z (-1074) l = (shr_record_of_loc z l, -1074).
Proof.
  intros Hz. unfold shr_fexp, fexp, emin.
  replace (Z.max (Zdigits2 z + -1074 - 53) (3 - 1024 - 53) - -1074) with 0 by lia.
  reflexivity.
Qed.

(** The first rounding shift of [x / 2] is the same. *)
Lemma div_two_shr (m : positive) (e : Z) :
  SpecFloat.bounded prec emax m e = true ->
  (let '(mz, ez, lz) := SFdiv_core_binary prec emax (Z.pos m) e 4503599627370496 (-51) in
   shr_fexp prec emax mz ez lz)
  = if e =? -1074 then (shr_1 (Build_shr_record (Z.pos m) false false), -1074)
    else (Build_shr_record (Z.pos m) false false, e - 1).
Proof.
  intros Hb. apply bounded_facts in Hb as [Hc He].
  unfold SFdiv_core_binary. cbn [Zdigits2 digits2_pos Pos.succ].
  unfold fexp, emin. change prec with 53. change emax with 1024.
  change IntDef.Z.min with Z.min. change IntDef.Z.div_eucl with Z.div_eucl.
  change IntDef.Z.shiftl with Z.shiftl.
  destruct (e =? -1074) eqn:E.
  - apply Z.eqb_eq in E. subst e.
    replace (Z.min (Z.max (Z.pos (digits2_pos m) + -1074 - (53 + -51) - 53) (3 - 1024 - 53)) (-1074 - -51)) with (-1074) by lia.
    change (-1074 - -51 - -1074) with 51. cbv iota.
    rewrite Z.shiftl_mul_pow2 by lia.
    destruct m as [p|p|].
    + rewrite (@div_mod_by (Z.pos p~1 * 2 ^ 51) 4503599627370496 (Z.pos p) (2 ^ 51)).
      * rewrite shr_fexp_small; [reflexivity|].
        cbn [Zdigits2 digits2_pos] in *. change PosDef.Pos.succ with Pos.succ in *. lia.
      * rewrite Pos2Z.inj_xI. lia.
      * lia.
    + rewrite (@div_mod_by (Z.pos p~0 * 2 ^ 51) 4503599627370496 (Z.pos p) 0).
      * rewrite shr_fexp_small; [reflexivity|].
        cbn [Zdigits2 digits2_pos] in *. change PosDef.Pos.succ with Pos.succ in *. lia.
      * rewrite Pos2Z.inj_xO. lia.
      * lia.
    + reflexivity.
  - apply Z.eqb_neq in E.
    assert (Hd : Z.pos (digits2_pos m) = 53) by lia.
    destruct (Z.eq_dec e (-1073)) as [->|E'].
    + replace (Z.min (Z.max (Z.pos (digits2_pos m) + -1073 - (53 + -51) - 53) (3 - 1024 - 53)) (-1073 - -51)) with (-1074) by lia.
      change (-1073 - -51 - -1074) with 52. cbv iota.
      rewrite Z.shiftl_mul_pow2 by lia.
      rewrite (@div_mod_by (Z.pos m * 2 ^ 52) 4503599627370496 (Z.pos m) 0) by lia.
      rewrite shr_fexp_small; [reflexivity|]. cbn [Zdigits2]. lia.
    + replace (Z.min (Z.max (Z.pos (digits2_pos m) + e - (53 + -51) - 53) (3 - 1024 - 53)) (e - -51)) with (e - 2) by lia.
      replace (e - -51 - (e - 2)) with 53 by lia. cbv iota.
      rewrite Z.shiftl_mul_pow2 by lia.
      rewrite (@div_mod_by (Z.pos m * 2 ^ 53) 4503599627370496 (Z.pos m~0) 0);
        [| rewrite Pos2Z.inj_xO; lia | lia].
      change (new_location 4503599627370496 0) with loc_Exact.
      unfold shr_fexp, fexp, emin. cbn [Zdigits2 digits2_pos shr_record_of_loc].
      change PosDef.Pos.succ with Pos.succ.
      replace (Z.max (Z.pos (Pos.succ (digits2_pos m)) + (e - 2) - 53) (3 - 1024 - 53) - (e - 2)) with 1 by lia.
      unfold shr. cbn [iter_pos shr_1]. f_equal. lia.
Qed.

(** Rounding depends on its argument only through that first shift. *)
Lemma binary_round_aux_shr (s : bool) (m1 m2 e1 e2 : Z) (l1 l2 : location) :
  shr_fexp prec emax m1 e1 l1 = shr_fexp prec emax m2 e2 l2 ->
  binary_round_aux prec emax s m1 e1 l1 = binary_round_aux prec emax s m2 e2 l2.
Proof. intros E. unfold binary_round_aux. rewrite E. reflexivity. Qed.

(** On binary64, halving by [0.5 *] and by [/ 2] agree on every float. *)
Lemma float_half_mul (x : float) : (0.5 * x = x / 2)%float.
Proof.
  apply Prim2SF_inj. rewrite mul_spec, div_spec.
  pose proof (Prim2SF_valid x) as V.
  change (Prim2SF 0.5) with (S754_finite false 4503599627370496 (-53)).
  change (Prim2SF 2) with (S754_finite false 4503599627370496 (-51)).
  destruct (Prim2SF x) as [s|s| |s m e].
  - destruct s; reflexivity.
  - destruct s; reflexivity.
  - reflexivity.
  - cbn [valid_binary] in V.
    unfold SF64mul, SFmul, SF64div, SFdiv.
    pose proof (@div_two_shr m e V) as D.
    destruct (SFdiv_core_binary prec emax (Z.pos m) e 4503599627370496 (-51))
      as [[mz ez] lz].
    replace (xorb s false) with (xorb false s) by (destruct s; reflexivity).
    apply binary_round_aux_shr.
    rewrite D. apply mul_half_shr, V.
Qed.

(** On finite floats [x - x] is [+0]. *)
Lemma float_sub_diag (x : float) :
  Binary64.float_is_finite x = true -> (x - x = 0)%float.
Proof.
  intros Hx. apply Prim2SF_inj. rewrite sub_spec.
  unfold Binary64.float_is_finite in Hx.
  destruct (Prim2SF x) as [s|s| |s m e]; try discriminate Hx.
  - destruct s; reflexivity.
  - unfold SF64sub, SFsub. rewrite Z.sub_diag. reflexivity.
Qed.

End Binary64Facts.

(** ** The RK4 stepper *)

Section Stepper.

Context {F : Type} `{Float64Ops F}.

(** C1.  On a state vector [s] of 12 entries (and the 3 masses of the
    program) the four evaluations of the derivative function return, and
    the stepper returns [s + (k1 + 2*k2 + 2*k3 + k4)/6] with [k1 = f(s)*dt],
    [k2 = f(s + k1/2)*dt], [k3 = f(s + k2/2)*dt], [k4 = f(s + k3)*dt].  The
    code halves with [0.5 * k]; the statement holds in every arithmetic
    where that is [k / 2], which is the case of IEEE-754 binary64 and of
    exact arithmetic. *)
Theorem runge_kutta_step_formula (s masses : list F) (dt : F) :
  (forall x, fmul lit_half x = fdiv x (of_int 2)) ->
  length s = 12 -> length masses = 3 ->
  exists d1 d2 d3 d4,
    let k1 := arr_mul_scalar d1 dt in
    let k2 := arr_mul_scalar d2 dt in
    let k3 := arr_mul_scalar d3 dt in
    let k4 := arr_mul_scalar d4 dt in
    derivatives s masses = Returned d1 /\
    derivatives (arr_add s (halved k1)) masses = Returned d2 /\
    derivatives (arr_add s (halved k2)) masses = Returned d3 /\
    derivatives (arr_add s k3) masses = Returned d4 /\
    runge_kutta_step s masses dt = Returned (rk4_combine s k1 k2 k3 k4).
Proof.
  intros Hh Hs Hm.
  destruct (derivatives_returns s masses Hs Hm) as (d1 & E1 & L1).
  assert (Hk : forall d, length d = 12 ->
               length (arr_add s (halved (arr_mul_scalar d dt))) = 12).
  { intros d Hd. apply arr_add_length; [exact Hs|].
    unfold halved. now rewrite arr_div_scalar_length, arr_mul_scalar_length. }
  destruct (derivatives_returns _ masses (Hk d1 L1) Hm) as (d2 & E2 & L2).
  destruct (derivatives_returns _ masses (Hk d2 L2) Hm) as (d3 & E3 & L3).
  assert (H3 : length (arr_add s (arr_mul_scalar d3 dt)) = 12).
  { apply arr_add_length; [exact Hs|]. now rewrite arr_mul_scalar_length. }
  destruct (derivatives_returns _ masses H3 Hm) as (d4 & E4 & L4).
  exists d1, d2, d3, d4. cbv zeta.
  repeat split; try assumption.
  unfold runge_kutta_step.
  rewrite E1. cbn [bind]. rewrite half_is_halved by exact Hh.
  rewrite E2. cbn [bind]. rewrite half_is_halved by exact Hh.
  rewrite E3. cbn [bind]. rewrite E4. cbn [bind]. reflexivity.
Qed.

End Stepper.

(** ** The derivative function *)

Section Derivative.

Context {F : Type} `{Float64Ops F}.

(** C2.  On a state vector of 12 entries and 3 masses, [derivatives]
    returns 12 entries in the layout of a state vector: the first six are
    the velocity block of the input; the last six hold, for each body [i],
    the sum of [Force(i,j)] over the bodies [j] other than [i] (the six
    ordered pairs in all), divided by the mass of [i].  No pair [(i,i)]
    enters the sum. *)
Theorem derivatives_layout (state masses : list F) :
  length state = 12 -> length masses = 3 ->
  exists dydt,
    derivatives state masses = Returned dydt /\
    length dydt = 12 /\
    firstn 6 dydt = skipn 6 state /\
    (forall i, i < 3 -> velocity_of dydt i = acceleration_of state masses i) /\
    (forall i, i < 3 -> ~ In i (others i)) /\
    length (concat (map others (range 3))) = 6.
Proof.
  intros Hs Hm.
  apply length_12 in Hs
    as (a0 & a1 & a2 & a3 & a4 & a5 & a6 & a7 & a8 & a9 & a10 & a11 & ->).
  apply length_3 in Hm as (m0 & m1 & m2 & ->).
  eexists. split; [reflexivity|].
  split; [reflexivity|]. split; [reflexivity|].
  split; [|split; [|reflexivity]].
  - intros i Hi.
    destruct i as [|[|[|i]]]; [reflexivity | reflexivity | reflexivity | lia].
  - intros i Hi Hin. unfold others in Hin.
    apply filter_In in Hin as [_ Hne].
    rewrite Nat.eqb_refl in Hne. discriminate Hne.
Qed.

End Derivative.

(** ** The force model *)

Section Force.

Context {F : Type} `{Float64Ops F}.

(** Line 22: past the guard, the force is the formula. *)
Lemma force_past_guard (m1 m2 : F) (r1 r2 : vec2) :
  feqb (norm (vsub r2 r1)) f0 = false ->
  gravitational_force m1 m2 r1 r2
  = vdiv (vscale (fmul (fmul lit_G m1) m2) (vsub r2 r1)) (fpow (norm (vsub r2 r1)) 3).
Proof.
  intros Hr. unfold gravitational_force. cbv zeta. rewrite Hr. reflexivity.
Qed.

(** C3 (amended).  Whenever the computed distance [np.linalg.norm(r2 - r1)]
    does not compare equal to zero, [gravitational_force] returns
    [G*m1*m2*(r2 - r1)/|r2 - r1|^3] with [G = 6.67430e-11]; being a function
    of its four arguments it has no other effect. *)
Theorem force_formula_nonzero_distance (m1 m2 : F) (r1 r2 : vec2) :
  feqb (norm (vsub r2 r1)) f0 = false ->
  gravitational_force m1 m2 r1 r2 = newton_formula m1 m2 r1 r2.
Proof.
  intros Hr. unfold newton_formula. apply force_past_guard, Hr.
Qed.

(** The guard of line 20: a computed distance that compares equal to zero
    gives the zero vector. *)
Lemma force_zero_distance (m1 m2 : F) (r1 r2 : vec2) :
  feqb (norm (vsub r2 r1)) f0 = true ->
  gravitational_force m1 m2 r1 r2 = zeros2.
Proof.
  intros Hr. unfold gravitational_force. cbv zeta. rewrite Hr. reflexivity.
Qed.

End Force.

(** *** The force model on binary64 *)

Section ForceBinary64.

Local Open Scope float_scope.
Import Samples.

(** C3, as stated, fails on binary64: the bodies at [(0, 0)] and
    [(1e-200, 0)] are at distinct positions, but the squared distance
    underflows to zero, [r == 0] holds and the zero vector is returned,
    where the formula gives [(inf, nan)]. *)
Lemma force_zero_for_distinct_positions :
  origin <> near_origin /\
  gravitational_force (H := Binary64.ops) 1 1 origin near_origin = (0, 0) /\
  newton_formula (H := Binary64.ops) 1 1 origin near_origin = (infinity, nan).
Proof.
  split; [|split; reflexivity].
  intros E. apply (f_equal (fun p => PrimFloat.eqb (fst p) 0)) in E.
  vm_compute in E. discriminate E.
Qed.

(** C4, as stated, fails on binary64: with both bodies at [(inf, 0)] the
    difference of the positions is [(nan, 0)], the distance is [nan], the
    guard [r == 0] is false and the result is [(nan, nan)]. *)
Lemma force_nan_at_infinite_position :
  gravitational_force (H := Binary64.ops) 1 1 far_away far_away = (nan, nan) /\
  PrimFloat.eqb (norm (H := Binary64.ops) (vsub (H := Binary64.ops) far_away far_away)) 0
  = false.
Proof. split; reflexivity. Qed.

(** C4 (amended).  For all masses and every position [r] with finite
    coordinates, the distance computed for [r1 = r2 = r] is exactly zero and
    [gravitational_force] returns the zero vector; it raises nothing. *)
Theorem force_zero_at_finite_coincidence (m1 m2 x y : float) :
  Binary64.float_is_finite x = true ->
  Binary64.float_is_finite y = true ->
  norm (H := Binary64.ops) (vsub (H := Binary64.ops) (x, y) (x, y)) = 0 /\
  gravitational_force (H := Binary64.ops) m1 m2 (x, y) (x, y) = (0, 0).
Proof.
  intros Hx Hy.
  assert (Hn : norm (H := Binary64.ops) (vsub (H := Binary64.ops) (x, y) (x, y)) = 0).
  { unfold norm, vsub. cbn [fst snd fsub fmul fadd fsqrt Binary64.ops].
    rewrite (float_sub_diag x Hx), (float_sub_diag y Hy). reflexivity. }
  split; [exact Hn|].
  apply (@force_zero_distance float Binary64.ops). rewrite Hn. reflexivity.
Qed.

Lemma force_zero_at_initial_position :
  norm (H := Binary64.ops) (vsub (H := Binary64.ops) (1.496e11, 0) (1.496e11, 0)) = 0 /\
  gravitational_force (H := Binary64.ops) 1.989e30 1.989e30 (1.496e11, 0) (1.496e11, 0)
  = (0, 0).
Proof. apply force_zero_at_finite_coincidence; reflexivity. Defined.

(** C3 (amended), at Earth and Moon one metre apart. *)
Lemma force_formula_one_metre :
  gravitational_force (H := Binary64.ops) m_earth m_moon origin east
  = newton_formula (H := Binary64.ops) m_earth m_moon origin east.
Proof. apply (@force_formula_nonzero_distance float Binary64.ops). reflexivity. Defined.

(** C5, as stated, fails on binary64: for the masses of Earth and Moon, one
    metre apart, the force on the first body and the negated force on the
    second differ in their last digits, because [G*m1*m2] and [G*m2*m1] are
    rounded after each product. *)
Lemma third_law_fails_in_binary64 :
  origin <> east /\
  gravitational_force (H := Binary64.ops) m_earth m_moon origin east
  = (2.9288334122079998e+37, 0) /\
  vneg (H := Binary64.ops) (gravitational_force (H := Binary64.ops) m_moon m_earth east origin)
  = (2.9288334122079994e+37, -0) /\
  PrimFloat.eqb 2.9288334122079998e+37 2.9288334122079994e+37 = false.
Proof.
  split; [|repeat split; reflexivity].
  intros E. apply (f_equal (fun p => PrimFloat.eqb (fst p) 0)) in E.
  vm_compute in E. discriminate E.
Qed.

End ForceBinary64.


(** ** Trajectory history *)

Section Trajectory.

Context {A : Type}.

Lemma lastn_all (n : nat) (l : list A) : length l <= n -> lastn n l = l.
Proof.
  intros Hl. unfold lastn. replace (length l - n) with 0 by lia. reflexivity.
Qed.

Lemma lastn_length (n : nat) (l : list A) : length (lastn n l) = Nat.min n (length l).
Proof. unfold lastn. rewrite length_skipn. lia. Qed.

(** Taking the last [n] entries before more are added does not change the
    last [n] entries afterwards. *)
Lemma lastn_app_lastn (n : nat) (l xs : list A) :
  lastn n (lastn n l ++ xs) = lastn n (l ++ xs).
Proof.
  destruct (Nat.le_gt_cases (length l) n) as [Hle|Hgt].
  - now rewrite (@lastn_all n l Hle).
  - unfold lastn at 1 3. rewrite !length_app, lastn_length.
    replace (Nat.min n (length l) + length xs - n) with (length xs) by lia.
    replace (length l + length xs - n) with (length xs + (length l - n)) by lia.
    rewrite <- skipn_skipn. f_equal.
    unfold lastn. rewrite skipn_app.
    replace (length l - n - length l) with 0 by lia. reflexivity.
Qed.

(** [append] on a bounded deque keeps it bounded and keeps the newest
    entries. *)
Lemma deque_append_bounded (n : nat) (d : deque A) (x : A) :
  bounded_by n d ->
  bounded_by n (deque_append d x) /\
  items (deque_append d x) = lastn n (items d ++ [x]).
Proof.
  intros [Hmax Hlen]. unfold deque_append, bounded_by, deque_len in *.
  rewrite Hmax. rewrite length_app. cbn [length].
  destruct (n <? length (items d) + 1) eqn:Hfull; cbn [items maxlen].
  - apply Nat.ltb_lt in Hfull.
    assert (Heq : length (items d) = n) by lia.
    assert (Htl : lastn n (items d ++ [x]) = tl (items d ++ [x])).
    { unfold lastn. rewrite length_app. cbn [length].
      replace (length (items d) + 1 - n) with 1 by lia.
      destruct (items d ++ [x]); reflexivity. }
    split; [split; [reflexivity|]|].
    + rewrite <- Htl, lastn_length. apply Nat.le_min_l.
    + symmetry. exact Htl.
  - apply Nat.ltb_ge in Hfull.
    split; [split; [reflexivity|]|].
    + rewrite length_app. cbn [length]. exact Hfull.
    + rewrite lastn_all; [reflexivity|]. rewrite length_app. cbn [length]. exact Hfull.
Qed.

(** On a bounded deque the guard of line 79 is false: nothing is evicted. *)
Lemma evict_if_longer_bounded (n : nat) (d : deque A) :
  bounded_by n d -> evict_if_longer n d = Returned (d, false).
Proof.
  intros [_ Hlen]. unfold evict_if_longer.
  apply Nat.ltb_ge in Hlen. rewrite Hlen. reflexivity.
Qed.

Lemma record_position_bounded (n : nat) (d : deque A) (x : A) :
  bounded_by n d -> record_position n d x = Returned (deque_append d x).
Proof.
  intros Hb. unfold record_position.
  rewrite evict_if_longer_bounded; [reflexivity|].
  apply deque_append_bounded, Hb.
Qed.

Lemma record_positions_bounded (n : nat) (xs : list A) : forall d : deque A,
  bounded_by n d ->
  record_positions n d xs = Returned (fold_left deque_append xs d) /\
  bounded_by n (fold_left deque_append xs d) /\
  items (fold_left deque_append xs d) = lastn n (items d ++ xs).
Proof.
  induction xs as [|x xs IH]; intros d Hb.
  - cbn [record_positions fold_left].
    split; [reflexivity|]. split; [exact Hb|].
    rewrite app_nil_r, lastn_all; [reflexivity|apply Hb].
  - cbn [record_positions fold_left].
    rewrite record_position_bounded by exact Hb. cbn [bind].
    destruct (deque_append_bounded x Hb) as [Hb1 Hi1].
    destruct (IH _ Hb1) as (E & Hb2 & Hi2).
    split; [exact E|]. split; [exact Hb2|].
    rewrite Hi2, Hi1, lastn_app_lastn, <- app_assoc. reflexivity.
Qed.

Lemma deque_new_bounded (n : nat) : bounded_by n (@deque_new A n).
Proof. split; [reflexivity|apply Nat.le_0_l]. Qed.

(** Once at least [n] entries have been added, the last [n] are among them. *)
Lemma lastn_app_long (n : nat) (l xs : list A) :
  n <= length xs -> lastn n (l ++ xs) = lastn n xs.
Proof.
  intros Hn. unfold lastn. rewrite length_app, skipn_app.
  replace (length l + length xs - n) with (length l + (length xs - n)) by lia.
  rewrite skipn_all2 by lia.
  replace (length l + (length xs - n) - length l) with (length xs - n) by lia.
  reflexivity.
Qed.

(** C7.  After [max_orbit_length + k] positions, [k > 0], have been
    appended to the trajectory of a body, one per frame, the trajectory holds
    exactly [max_orbit_length] positions: the last [max_orbit_length]
    appended, in the order they were appended (the first [k] are gone).  This
    holds from the empty trajectory [main] creates and from any trajectory it
    can have later (a deque of that [maxlen], within its bound).  The frames
    raise nothing, and the guarded [popleft] of
    [draw_simulation] changes nothing: the trajectory is what the appends
    alone leave. *)
Theorem trajectory_keeps_last_positions (max_orbit_length k : nat)
  (d0 : deque A) (xs : list A) :
  bounded_by max_orbit_length d0 ->
  0 < k -> length xs = max_orbit_length + k ->
  exists d,
    record_positions max_orbit_length d0 xs = Returned d /\
    d = fold_left deque_append xs d0 /\
    deque_len d = max_orbit_length /\
    items d = skipn k xs /\
    firstn k xs ++ items d = xs.
Proof.
  intros Hb0 Hk Hlen.
  destruct (record_positions_bounded xs Hb0) as (E & Hb & Hi).
  eexists. split; [exact E|]. split; [reflexivity|].
  rewrite lastn_app_long in Hi by lia. unfold lastn in Hi.
  replace (length xs - max_orbit_length) with k in Hi by lia.
  split; [|split; [exact Hi|]].
  - unfold deque_len. rewrite Hi, length_skipn. lia.
  - rewrite Hi. apply firstn_skipn.
Qed.

End Trajectory.

(** C7 at [max_orbit_length = 2], on three positions. *)
Lemma trajectory_keeps_last_positions_example :
  exists d : deque (float * float),
    record_positions 2 (deque_new 2) [(1, 0); (2, 0); (3, 0)]%float = Returned d /\
    d = fold_left deque_append [(1, 0); (2, 0); (3, 0)]%float (deque_new 2) /\
    deque_len d = 2 /\
    items d = skipn 1 [(1, 0); (2, 0); (3, 0)]%float /\
    firstn 1 [(1, 0); (2, 0); (3, 0)]%float ++ items d = [(1, 0); (2, 0); (3, 0)]%float.
Proof.
  apply (@trajectory_keeps_last_positions (float * float) 2 1 (deque_new 2));
    [split; [reflexivity|cbn; lia]|lia|reflexivity].
Defined.

(** ** Calls that return *)

Section Outcomes.

Lemma bind_returned {A B : Type} (c : outcome A) (k : A -> outcome B) (b : B) :
  bind c k = Returned b -> exists a, c = Returned a /\ k a = Returned b.
Proof.
  destruct c as [a|e]; cbn [bind]; intros E; [|discriminate E].
  exists a. split; [reflexivity|exact E].
Qed.

(** A property every iteration preserves holds when the loop returns. *)
Lemma for_each_preserves {S : Type} (P : S -> Prop) (body : nat -> S -> outcome S)
  (idx : list nat) :
  (forall i s s', P s -> body i s = Returned s' -> P s') ->
  forall s s', P s -> for_each idx body s = Returned s' -> P s'.
Proof.
  intros Hbody. induction idx as [|i idx IH]; intros s s' Hs E; cbn [for_each] in E.
  - injection E as <-. exact Hs.
  - apply bind_returned in E as (s1 & E1 & E2).
    apply (IH s1 s'); [|exact E2]. apply (Hbody i s s1 Hs E1).
Qed.

Lemma raises_only_bind {A B : Type} (ok : failure -> bool) (c : outcome A)
  (k : A -> outcome B) :
  raises_only ok c -> (forall a, raises_only ok (k a)) -> raises_only ok (bind c k).
Proof. destruct c as [a|e]; cbn; auto. Qed.

Lemma raises_only_for_each {S : Type} (ok : failure -> bool)
  (body : nat -> S -> outcome S) (idx : list nat) :
  (forall i s, raises_only ok (body i s)) ->
  forall s, raises_only ok (for_each idx body s).
Proof.
  intros Hbody. induction idx as [|i idx IH]; intros s; cbn [for_each].
  - exact I.
  - apply raises_only_bind; [apply Hbody|exact IH].
Qed.

Lemma getitem_In {A : Type} (a : list A) (i : nat) (x : A) :
  getitem a i = Returned x -> In x a.
Proof.
  unfold getitem. destruct (nth_error a i) as [y|] eqn:E; intros R; [|discriminate R].
  injection R as <-. exact (nth_error_In a i E).
Qed.

Lemma getitem_raises {A : Type} (a : list A) (i : nat) :
  raises_only shape_failure (getitem a i).
Proof. unfold getitem. destruct (nth_error a i); exact I || reflexivity. Qed.

Lemma Forall_setitem {A : Type} (P : A -> Prop) (x : A) :
  P x -> forall (a : list A) (i : nat), Forall P a -> Forall P (setitem a i x).
Proof.
  intros Hx. induction a as [|h t IH]; intros i Ha; [exact Ha|].
  inversion Ha as [|? ? Hh Ht]; subst.
  destruct i as [|i]; cbn [setitem]; constructor; auto.
Qed.

End Outcomes.

(** ** The simulation step never checks its result *)

Section Step.

Context {F : Type} `{Float64Ops F}.

Lemma reshape_3_2_raises (a : list F) : raises_only shape_failure (reshape_3_2 a).
Proof.
  unfold reshape_3_2.
  do 7 (destruct a as [|? a]; [reflexivity || exact I|]).
  reflexivity.
Qed.

Lemma div_rows_raises (forces : list vec2) (masses : list F) :
  raises_only shape_failure (div_rows forces masses).
Proof.
  unfold div_rows. destruct (length masses =? length forces); [exact I|].
  destruct masses as [|m [|m' masses]]; reflexivity || exact I.
Qed.

Lemma force_loops_raises (masses : list F) (positions : list vec2) :
  raises_only shape_failure (force_loops masses positions).
Proof.
  unfold force_loops.
  apply raises_only_for_each. intros i forces.
  apply raises_only_for_each. intros j forces'.
  unfold force_body. destruct (negb (i =? j)); [|exact I].
  repeat (apply raises_only_bind; [apply getitem_raises|intros ?]).
  exact I.
Qed.

Lemma derivatives_raises (state masses : list F) :
  raises_only shape_failure (derivatives state masses).
Proof.
  unfold derivatives.
  apply raises_only_bind; [apply reshape_3_2_raises|intros positions].
  apply raises_only_bind; [apply reshape_3_2_raises|intros velocities].
  apply raises_only_bind; [apply force_loops_raises|intros forces].
  apply raises_only_bind; [apply div_rows_raises|intros accel].
  exact I.
Qed.

Lemma runge_kutta_step_raises (state masses : list F) (dt : F) :
  raises_only shape_failure (runge_kutta_step state masses dt).
Proof.
  unfold runge_kutta_step.
  repeat (apply raises_only_bind; [apply derivatives_raises|intros ?]).
  exact I.
Qed.

Lemma update_simulation_raises (state masses : list F) (dt : F) :
  raises_only shape_failure (update_simulation state masses dt).
Proof.
  unfold update_simulation.
  apply raises_only_bind; [apply runge_kutta_step_raises|intros new_state].
  apply raises_only_bind; [apply reshape_3_2_raises|intros positions].
  exact I.
Qed.

(** On a state of 12 entries and 3 masses the RK4 step returns 12 entries. *)
Lemma runge_kutta_step_returns (state masses : list F) (dt : F) :
  length state = 12 -> length masses = 3 ->
  exists new_state,
    runge_kutta_step state masses dt = Returned new_state /\ length new_state = 12.
Proof.
  intros Hs Hm. unfold runge_kutta_step.
  destruct (derivatives_returns state masses Hs Hm) as (d1 & E1 & L1).
  rewrite E1. cbn [bind].
  assert (Hk : forall c d, length d = 12 ->
               length (arr_add state (scalar_mul_arr c (arr_mul_scalar d dt))) = 12).
  { intros c d Hd. apply arr_add_length; [exact Hs|].
    unfold scalar_mul_arr. now rewrite length_map, arr_mul_scalar_length. }
  destruct (derivatives_returns _ masses (Hk lit_half d1 L1) Hm) as (d2 & E2 & L2).
  rewrite E2. cbn [bind].
  destruct (derivatives_returns _ masses (Hk lit_half d2 L2) Hm) as (d3 & E3 & L3).
  rewrite E3. cbn [bind].
  assert (H3 : length (arr_add state (arr_mul_scalar d3 dt)) = 12).
  { apply arr_add_length; [exact Hs|]. now rewrite arr_mul_scalar_length. }
  destruct (derivatives_returns _ masses H3 Hm) as (d4 & E4 & L4).
  rewrite E4. cbn [bind].
  eexists. split; [reflexivity|].
  apply arr_add_length; [exact Hs|].
  rewrite arr_div_scalar_length.
  repeat (apply arr_add_length);
    unfold scalar_mul_arr; rewrite ?length_map, ?arr_mul_scalar_length; assumption.
Qed.

(** C8 (amended).  [update_simulation] makes no finiteness check and never
    fails with [NumericalFailure]: the only failures it can end in are
    [ValueError] and [IndexError], on arrays of the wrong shape.  On a state
    of 12 entries and 3 masses it returns the state the RK4 step produced,
    whatever its components, together with its position block. *)
Theorem update_simulation_unchecked (state masses : list F) (dt : F) :
  (forall e, update_simulation state masses dt = Raised e ->
             e = ValueError \/ e = IndexError) /\
  (length state = 12 -> length masses = 3 ->
   exists new_state positions,
     runge_kutta_step state masses dt = Returned new_state /\
     reshape_3_2 (firstn 6 new_state) = Returned positions /\
     update_simulation state masses dt = Returned (new_state, positions)).
Proof.
  split.
  - intros e E. pose proof (update_simulation_raises state masses dt) as R.
    rewrite E in R. destruct e; try discriminate R; [left|right]; reflexivity.
  - intros Hs Hm.
    destruct (runge_kutta_step_returns state masses dt Hs Hm) as (new_state & E & L).
    apply length_12 in L
      as (a0 & a1 & a2 & a3 & a4 & a5 & a6 & a7 & a8 & a9 & a10 & a11 & ->).
    eexists. eexists. split; [exact E|]. split; [reflexivity|].
    unfold update_simulation. rewrite E. reflexivity.
Qed.

End Step.

(** ** The main loop *)

Section MainLoop.

Context {F : Type} `{Float64Ops F}.

(** Lines 106-107 on three positions and three trajectories. *)
Lemma append_positions_three (p0 p1 p2 : @vec2 F) (t0 t1 t2 : deque (@vec2 F)) :
  append_positions [p0; p1; p2] [t0; t1; t2]
  = Returned [deque_append t0 p0; deque_append t1 p1; deque_append t2 p2].
Proof. reflexivity. Qed.

Lemma append_positions_bounded (n : nat) (positions : list (@vec2 F))
  (trajs trajs' : list (deque (@vec2 F))) :
  Forall (bounded_by n) trajs ->
  append_positions positions trajs = Returned trajs' ->
  Forall (bounded_by n) trajs'.
Proof.
  unfold append_positions. apply for_each_preserves.
  intros i s s' Hs E.
  apply bind_returned in E as (p & _ & E).
  apply bind_returned in E as (t & Et & E).
  injection E as <-.
  apply Forall_setitem; [|exact Hs].
  apply deque_append_bounded.
  apply getitem_In in Et. rewrite Forall_forall in Hs. apply Hs, Et.
Qed.

(** One pass of the loop of [draw_simulation] over bounded trajectories
    leaves them as they are and executes no [popleft]. *)
Lemma draw_body_keeps (n : nat) (positions : list (@vec2 F)) (W Hh : Z) (SCALE : F)
  (i : nat) (st st' : @draw_state F) :
  Forall (bounded_by n) (ds_trajectories st) ->
  draw_body positions W Hh SCALE n i st = Returned st' ->
  ds_trajectories st' = ds_trajectories st /\ ds_poplefts st' = ds_poplefts st.
Proof.
  intros Hb E. unfold draw_body in E.
  apply bind_returned in E as (p & _ & E).
  apply bind_returned in E as (xy & _ & E).
  apply bind_returned in E as (t & Et & E).
  apply bind_returned in E as (screen1 & _ & E).
  rewrite evict_if_longer_bounded in E.
  - cbn [bind snd fst] in E. injection E as <-. split; reflexivity.
  - apply getitem_In in Et. rewrite Forall_forall in Hb. apply Hb, Et.
Qed.

Lemma draw_simulation_keeps (n : nat) (positions : list (@vec2 F)) (W Hh : Z) (SCALE : F)
  (st st' : @draw_state F) :
  Forall (bounded_by n) (ds_trajectories st) ->
  draw_simulation st positions W Hh SCALE n = Returned st' ->
  ds_trajectories st' = ds_trajectories st /\ ds_poplefts st' = ds_poplefts st.
Proof.
  intros Hb E. unfold draw_simulation in E.
  apply bind_returned in E as (st1 & E1 & E).
  injection E as <-. cbn [ds_trajectories ds_poplefts].
  revert E1.
  apply (for_each_preserves
           (fun s => ds_trajectories s = ds_trajectories st /\
                     ds_poplefts s = ds_poplefts st)).
  - intros i s s' [Ht Hp] E.
    apply draw_body_keeps in E as [Ht' Hp']; [|rewrite Ht; exact Hb].
    split; congruence.
  - split; reflexivity.
Qed.

(** One iteration of the loop: the new state is the one [update_simulation]
    returns, and each trajectory is the old one with the new position
    appended. *)
Lemma main_iteration_returned (c : @config F) (w w' : @world F) :
  Forall (bounded_by (c_max_orbit_length c)) (ds_trajectories (w_draw w)) ->
  main_iteration c w = Returned w' ->
  exists r,
    update_simulation (w_state w) (c_masses c) (c_dt c) = Returned r /\
    w_state w' = fst r /\
    append_positions (snd r) (ds_trajectories (w_draw w))
    = Returned (ds_trajectories (w_draw w')) /\
    ds_poplefts (w_draw w') = ds_poplefts (w_draw w).
Proof.
  intros Hb E. unfold main_iteration in E.
  apply bind_returned in E as (r & Er & E).
  apply bind_returned in E as (trajs & Ea & E).
  apply bind_returned in E as (st & Ed & E).
  injection E as <-. cbn [w_state w_draw].
  apply draw_simulation_keeps in Ed as [Ht Hp].
  - cbn [ds_trajectories ds_poplefts] in Ht, Hp.
    exists r. rewrite Ht, Hp. repeat split; assumption.
  - cbn [ds_trajectories]. apply (append_positions_bounded _ Hb Ea).
Qed.

Lemma main_iteration_invariant (c : @config F) (w w' : @world F) :
  loop_invariant (c_max_orbit_length c) (w_draw w) ->
  main_iteration c w = Returned w' ->
  loop_invariant (c_max_orbit_length c) (w_draw w').
Proof.
  intros [Hb Hp] E.
  apply main_iteration_returned in E as (r & _ & _ & Ea & Hp'); [|exact Hb].
  split; [|congruence].
  apply (append_positions_bounded _ Hb Ea).
Qed.

Lemma iterate_invariant (c : @config F) (n : nat) : forall w w' : @world F,
  loop_invariant (c_max_orbit_length c) (w_draw w) ->
  iterate c n w = Returned w' ->
  loop_invariant (c_max_orbit_length c) (w_draw w').
Proof.
  induction n as [|n IH]; intros w w' Hw E; cbn [iterate] in E.
  - injection E as <-. exact Hw.
  - apply bind_returned in E as (w1 & E1 & E2).
    apply (IH w1 w'); [|exact E2].
    apply (main_iteration_invariant c w Hw E1).
Qed.

(** C10.  Every trajectory deque of [main] is created with [maxlen] equal to
    [max_orbit_length]; whatever is appended to such a deque, its length
    never exceeds [max_orbit_length]; and at the head of the loop of [main],
    after any number of iterations, every trajectory is within that bound
    and the [popleft] of [draw_simulation] has been executed zero times. *)
Theorem popleft_never_executed (max_orbit_length : nat) :
  let c := fst (@main_setup F _ max_orbit_length) in
  let w0 := snd (@main_setup F _ max_orbit_length) in
  c_max_orbit_length c = max_orbit_length /\
  Forall (fun d => maxlen d = Some max_orbit_length /\ items d = [])
    (ds_trajectories (w_draw w0)) /\
  (forall xs : list (@vec2 F),
     deque_len (fold_left deque_append xs (deque_new max_orbit_length))
     <= max_orbit_length) /\
  (forall (n : nat) (w : @world F),
     iterate c n w0 = Returned w ->
     Forall (bounded_by max_orbit_length) (ds_trajectories (w_draw w)) /\
     ds_poplefts (w_draw w) = 0).
Proof.
  cbv zeta. split; [reflexivity|]. split; [|split].
  - cbn. repeat constructor.
  - intros xs.
    apply (record_positions_bounded xs (deque_new_bounded max_orbit_length)).
  - intros n w E.
    apply (iterate_invariant (fst (main_setup max_orbit_length)) n
             (snd (main_setup max_orbit_length)) (w' := w)); [|exact E].
    split; [|reflexivity].
    cbn. repeat constructor; apply Nat.le_0_l.
Qed.

End MainLoop.

(** ** The program on binary64 *)

Section OnBinary64.

Import Samples.

(** C2 on the initial conditions of the program. *)
Lemma derivatives_layout_initial :
  exists dydt,
    derivatives (H := Binary64.ops) state0 masses0 = Returned dydt /\
    length dydt = 12 /\
    firstn 6 dydt = skipn 6 state0 /\
    (forall i, i < 3 ->
       velocity_of (H := Binary64.ops) dydt i
       = acceleration_of (H := Binary64.ops) state0 masses0 i) /\
    (forall i, i < 3 -> ~ In i (others i)) /\
    length (concat (map others (range 3))) = 6.
Proof.
  apply (@derivatives_layout float Binary64.ops state0 masses0); reflexivity.
Defined.

(** C8, as stated, fails on binary64: three coincident unit masses moving
    together at 1e308 m/s make a finite state; after one step of [dt = 1]
    the sum [k1 + 2*k2] overflows, the positions of the new state are
    infinite, and [update_simulation] returns that state: it does not fail
    with [NumericalFailure]. *)
Lemma step_returns_nonfinite_state :
  has_nonfinite (H := Binary64.ops) fast_state = false /\
  has_nonfinite (H := Binary64.ops) unit_masses = false /\
  update_simulation (H := Binary64.ops) fast_state unit_masses 1%float
  = Returned ([infinity; 0; infinity; 0; infinity; 0; 1e308; 0; 1e308; 0; 1e308; 0]%float,
              [(infinity, 0); (infinity, 0); (infinity, 0)]%float) /\
  has_nonfinite (H := Binary64.ops)
    [infinity; 0; infinity; 0; infinity; 0; 1e308; 0; 1e308; 0; 1e308; 0]%float = true.
Proof. repeat split; reflexivity. Qed.

(** C8 (amended) on that input. *)
Lemma update_simulation_unchecked_fast :
  (forall e, update_simulation (H := Binary64.ops) fast_state unit_masses 1%float = Raised e ->
             e = ValueError \/ e = IndexError) /\
  exists new_state positions,
    runge_kutta_step (H := Binary64.ops) fast_state unit_masses 1%float = Returned new_state /\
    reshape_3_2 (firstn 6 new_state) = Returned positions /\
    update_simulation (H := Binary64.ops) fast_state unit_masses 1%float
    = Returned (new_state, positions).
Proof.
  destruct (@update_simulation_unchecked float Binary64.ops fast_state unit_masses 1%float)
    as [Hno Hret].
  split; [exact Hno|]. apply Hret; reflexivity.
Defined.

(** C10 on five iterations of the loop with [max_orbit_length = 2]: the
    loop returns, the trajectories hold two positions each and no [popleft]
    was executed. *)
Lemma popleft_never_executed_run :
  exists w,
    iterate (H := Binary64.ops) (fst (@main_setup float Binary64.ops 2)) 5
      (snd (@main_setup float Binary64.ops 2)) = Returned w /\
    map (@deque_len _) (ds_trajectories (w_draw w)) = [2; 2; 2] /\
    Forall (bounded_by 2) (ds_trajectories (w_draw w)) /\
    ds_poplefts (w_draw w) = 0.
Proof.
  eexists. split; [vm_compute; reflexivity|]. split; [reflexivity|].
  apply (proj2 (proj2 (proj2 (@popleft_never_executed float Binary64.ops 2))) 5).
  vm_compute. reflexivity.
Defined.

End OnBinary64.

(** C1 on the initial conditions of the program, on binary64. *)
Lemma runge_kutta_step_formula_initial :
  exists d1 d2 d3 d4 : list float,
    let s := Samples.state0 in
    let masses := Samples.masses0 in
    let dt := 2e4%float in
    let k1 := arr_mul_scalar (H := Binary64.ops) d1 dt in
    let k2 := arr_mul_scalar (H := Binary64.ops) d2 dt in
    let k3 := arr_mul_scalar (H := Binary64.ops) d3 dt in
    let k4 := arr_mul_scalar (H := Binary64.ops) d4 dt in
    derivatives (H := Binary64.ops) s masses = Returned d1 /\
    derivatives (H := Binary64.ops)
      (arr_add (H := Binary64.ops) s (halved (H := Binary64.ops) k1)) masses
    = Returned d2 /\
    derivatives (H := Binary64.ops)
      (arr_add (H := Binary64.ops) s (halved (H := Binary64.ops) k2)) masses
    = Returned d3 /\
    derivatives (H := Binary64.ops) (arr_add (H := Binary64.ops) s k3) masses
    = Returned d4 /\
    runge_kutta_step (H := Binary64.ops) s masses dt
    = Returned (rk4_combine (H := Binary64.ops) s k1 k2 k3 k4).
Proof.
  apply (@runge_kutta_step_formula float Binary64.ops).
  - exact float_half_mul.
  - reflexivity.
  - reflexivity.
Defined.

(* ================================================================== *)
(** * Further properties of the program *)

(** ** Shapes: what [derivatives] and [update_simulation] accept *)

Section ShapeErrors.

Context {F : Type} `{Float64Ops F}.

(** The failures of [derivatives], one shape at a time. *)
Lemma derivatives_bad_state (state masses : list F) :
  length state <> 12 -> derivatives state masses = Raised ValueError.
Proof.
  intros Hs.
  do 12 (destruct state as [|? state]; [reflexivity|]).
  destruct state as [|? state]; [contradiction Hs; reflexivity|reflexivity].
Qed.

Lemma derivatives_few_masses (state masses : list F) :
  length state = 12 -> length masses < 3 -> derivatives state masses = Raised IndexError.
Proof.
  intros Hs Hm.
  apply length_12 in Hs
    as (a0 & a1 & a2 & a3 & a4 & a5 & a6 & a7 & a8 & a9 & a10 & a11 & ->).
  destruct masses as [|m0 [|m1 [|m2 masses]]]; [reflexivity|reflexivity|reflexivity|].
  cbn [length] in Hm. lia.
Qed.

Lemma derivatives_many_masses (state masses : list F) :
  length state = 12 -> 3 < length masses -> derivatives state masses = Raised ValueError.
Proof.
  intros Hs Hm.
  apply length_12 in Hs
    as (a0 & a1 & a2 & a3 & a4 & a5 & a6 & a7 & a8 & a9 & a10 & a11 & ->).
  destruct masses as [|m0 [|m1 [|m2 [|m3 masses]]]]; cbn [length] in Hm; try lia.
  reflexivity.
Qed.

(** [derivatives] returns on no other shape than 12 entries and 3 masses. *)
Lemma derivatives_returned_shape (state masses dydt : list F) :
  derivatives state masses = Returned dydt ->
  length state = 12 /\ length masses = 3.
Proof.
  intros E.
  destruct (Nat.eq_dec (length state) 12) as [Hs|Hs].
  - split; [exact Hs|].
    destruct (Nat.lt_trichotomy (length masses) 3) as [Hm|[Hm|Hm]]; [|exact Hm|].
    + rewrite (derivatives_few_masses _ _ Hs Hm) in E. discriminate E.
    + rewrite (derivatives_many_masses _ _ Hs Hm) in E. discriminate E.
  - rewrite (derivatives_bad_state _ masses Hs) in E. discriminate E.
Qed.

(** X1.  The exceptions of [derivatives] on ill-shaped arrays: a state
    vector that has not 12 entries makes one of the two [reshape] calls of
    lines 26-27 raise [ValueError]; with 12 entries, fewer than three masses
    make [masses[i]] or [masses[j]] of line 33 raise [IndexError], and more
    than three make the broadcast division of line 37 raise [ValueError].
    [derivatives] returns exactly on 12 entries and 3 masses. *)
Theorem derivatives_shape_errors (state masses : list F) :
  (length state <> 12 -> derivatives state masses = Raised ValueError) /\
  (length state = 12 -> length masses < 3 ->
   derivatives state masses = Raised IndexError) /\
  (length state = 12 -> 3 < length masses ->
   derivatives state masses = Raised ValueError) /\
  ((exists dydt, derivatives state masses = Returned dydt) <->
   length state = 12 /\ length masses = 3).
Proof.
  split; [apply derivatives_bad_state|].
  split; [apply derivatives_few_masses|].
  split; [apply derivatives_many_masses|].
  split.
  - intros [dydt E]. exact (derivatives_returned_shape _ _ E).
  - intros [Hs Hm]. destruct (derivatives_returns state masses Hs Hm) as (d & E & _).
    exists d. exact E.
Qed.

(** What [derivatives] raises on the state, [runge_kutta_step] raises. *)
Lemma runge_kutta_step_first_failure (state masses : list F) (dt : F) (e : failure) :
  derivatives state masses = Raised e -> runge_kutta_step state masses dt = Raised e.
Proof. intros E. unfold runge_kutta_step. rewrite E. reflexivity. Qed.

(** [update_simulation] on 12 entries and 3 masses, and what it returns. *)
Lemma update_simulation_total (state masses : list F) (dt : F) :
  length state = 12 -> length masses = 3 ->
  exists new_state,
    runge_kutta_step state masses dt = Returned new_state /\
    length new_state = 12 /\
    update_simulation state masses dt
    = Returned (new_state, [position_of new_state 0; position_of new_state 1;
                            position_of new_state 2]).
Proof.
  intros Hs Hm.
  destruct (runge_kutta_step_returns state masses dt Hs Hm) as (ns & E & L).
  exists ns. split; [exact E|]. split; [exact L|].
  unfold update_simulation. rewrite E. cbn [bind].
  apply length_12 in L
    as (a0 & a1 & a2 & a3 & a4 & a5 & a6 & a7 & a8 & a9 & a10 & a11 & ->).
  reflexivity.
Qed.

Lemma update_simulation_returned (state masses : list F) (dt : F)
  (r : list F * list (@vec2 F)) :
  update_simulation state masses dt = Returned r ->
  length state = 12 /\ length masses = 3 /\
  runge_kutta_step state masses dt = Returned (fst r) /\
  length (fst r) = 12 /\
  snd r = [position_of (fst r) 0; position_of (fst r) 1; position_of (fst r) 2].
Proof.
  intros E.
  assert (Hshape : length state = 12 /\ length masses = 3).
  { unfold update_simulation in E.
    apply bind_returned in E as (ns & E & _).
    destruct (derivatives state masses) as [d|e] eqn:Ed.
    - exact (derivatives_returned_shape _ _ Ed).
    - rewrite (runge_kutta_step_first_failure _ _ dt Ed) in E. discriminate E. }
  destruct Hshape as [Hs Hm].
  destruct (update_simulation_total state masses dt Hs Hm) as (ns & Er & L & Eu).
  rewrite Eu in E. injection E as <-. cbn [fst snd].
  repeat (split; [assumption|]). reflexivity.
Qed.

(** X2.  [update_simulation] returns exactly on a state vector of 12 entries
    and 3 masses; what it returns is the state vector of [runge_kutta_step],
    of 12 entries, and three positions that are entries 0 to 5 of that very
    vector, row [i] being the position of body [i]. *)
Theorem update_simulation_shapes (state masses : list F) (dt : F) :
  ((exists r, update_simulation state masses dt = Returned r) <->
   length state = 12 /\ length masses = 3) /\
  (forall new_state positions,
     update_simulation state masses dt = Returned (new_state, positions) ->
     runge_kutta_step state masses dt = Returned new_state /\
     length new_state = 12 /\ length positions = 3 /\
     flatten positions = firstn 6 new_state /\
     forall i, i < 3 -> nth_error positions i = Some (position_of new_state i)).
Proof.
  split; [split|].
  - intros [r E]. apply update_simulation_returned in E as (Hs & Hm & _).
    split; assumption.
  - intros [Hs Hm].
    destruct (update_simulation_total state masses dt Hs Hm) as (ns & _ & _ & E).
    eexists. exact E.
  - intros ns ps E.
    apply update_simulation_returned in E as (_ & _ & Er & L & Ep).
    cbn [fst snd] in Er, L, Ep. subst ps.
    split; [exact Er|]. split; [exact L|]. split; [reflexivity|].
    apply length_12 in L
      as (a0 & a1 & a2 & a3 & a4 & a5 & a6 & a7 & a8 & a9 & a10 & a11 & ->).
    split; [reflexivity|].
    intros i Hi. destruct i as [|[|[|i]]]; [reflexivity|reflexivity|reflexivity|lia].
Qed.

(** X3.  The packing of line 51 and the unpacking of lines 26-27 are inverse
    to each other: three positions and three velocities packed into a state
    vector give 12 entries from which the two [reshape] calls return them
    again; every 12-entry vector is the packing of what the two [reshape]
    calls return on it; and on any other length one of the two raises
    [ValueError]. *)
Theorem state_layout_round_trip :
  (forall positions velocities : list (@vec2 F),
     length positions = 3 -> length velocities = 3 ->
     length (pack_state positions velocities) = 12 /\
     reshape_3_2 (firstn 6 (pack_state positions velocities)) = Returned positions /\
     reshape_3_2 (skipn 6 (pack_state positions velocities)) = Returned velocities) /\
  (forall state : list F,
     length state = 12 ->
     exists positions velocities,
       reshape_3_2 (firstn 6 state) = Returned positions /\
       reshape_3_2 (skipn 6 state) = Returned velocities /\
       pack_state positions velocities = state) /\
  (forall state : list F,
     length state <> 12 ->
     reshape_3_2 (firstn 6 state) = Raised ValueError \/
     reshape_3_2 (skipn 6 state) = Raised ValueError).
Proof.
  split; [|split].
  - intros positions velocities Hp Hv.
    destruct positions as [|[x0 y0] [|[x1 y1] [|[x2 y2] [|? ?]]]]; try discriminate Hp.
    destruct velocities as [|[u0 v0] [|[u1 v1] [|[u2 v2] [|? ?]]]]; try discriminate Hv.
    repeat split; reflexivity.
  - intros state Hs.
    apply length_12 in Hs
      as (a0 & a1 & a2 & a3 & a4 & a5 & a6 & a7 & a8 & a9 & a10 & a11 & ->).
    eexists. eexists. repeat split; reflexivity.
  - intros state Hs.
    do 6 (destruct state as [|? state]; [left; reflexivity|]).
    do 6 (destruct state as [|? state]; [right; reflexivity|]).
    destruct state as [|? state]; [contradiction Hs; reflexivity|right; reflexivity].
Qed.

End ShapeErrors.

(** ** What the derivative function reads *)

Section Explicit.

Context {F : Type} `{Float64Ops F}.

(** The value of [derivatives] on 12 entries and 3 masses, written out. *)
Lemma derivatives_explicit (state masses : list F) :
  length state = 12 -> length masses = 3 ->
  derivatives state masses
  = Returned (skipn 6 state ++
              flatten [acceleration_of state masses 0;
                       acceleration_of state masses 1;
                       acceleration_of state masses 2]).
Proof.
  intros Hs Hm.
  apply length_12 in Hs
    as (a0 & a1 & a2 & a3 & a4 & a5 & a6 & a7 & a8 & a9 & a10 & a11 & ->).
  apply length_3 in Hm as (m0 & m1 & m2 & ->).
  reflexivity.
Qed.

(** X4.  The accelerations that [derivatives] returns depend on the
    positions only: on two state vectors with the same six position
    entries, whatever their velocities, the last six entries of the two
    results are the same. *)
Theorem derivatives_reads_positions (state state' masses : list F) :
  length state = 12 -> length state' = 12 -> length masses = 3 ->
  firstn 6 state = firstn 6 state' ->
  exists dydt dydt',
    derivatives state masses = Returned dydt /\
    derivatives state' masses = Returned dydt' /\
    skipn 6 dydt = skipn 6 dydt'.
Proof.
  intros Hs Hs' Hm Hp.
  rewrite (derivatives_explicit state masses Hs Hm).
  rewrite (derivatives_explicit state' masses Hs' Hm).
  eexists. eexists. split; [reflexivity|]. split; [reflexivity|].
  apply length_12 in Hs
    as (a0 & a1 & a2 & a3 & a4 & a5 & a6 & a7 & a8 & a9 & a10 & a11 & ->).
  apply length_12 in Hs'
    as (b0 & b1 & b2 & b3 & b4 & b5 & b6 & b7 & b8 & b9 & b10 & b11 & ->).
  cbn [firstn] in Hp. injection Hp as -> -> -> -> -> ->.
  reflexivity.
Qed.

End Explicit.

(** ** One frame of [draw_simulation] *)

Section Rendering.

Context {F : Type} `{Float64Ops F}.

(** Storing at an index what is there changes nothing. *)
Lemma setitem_same {A : Type} (a : list A) : forall (i : nat) (x : A),
  getitem a i = Returned x -> setitem a i x = a.
Proof.
  unfold getitem. induction a as [|h t IH]; intros [|i] x E; cbn in *; try discriminate E.
  - injection E as <-. reflexivity.
  - f_equal. apply IH. exact E.
Qed.

(** The guarded [popleft] of lines 79-80 never raises: a deque longer than
    [max_orbit_length] is not empty. *)
Lemma evict_if_longer_once (n : nat) (t : deque (@vec2 F)) :
  evict_if_longer n t = Returned (evicted_once n t, n <? deque_len t).
Proof.
  unfold evict_if_longer, evicted_once, deque_popleft, deque_len.
  destruct (n <? length (items t)) eqn:E; [|reflexivity].
  destruct (items t) as [|x rest]; [|reflexivity].
  apply Nat.ltb_lt in E. cbn in E. lia.
Qed.

(** One round of the loop of [draw_simulation] that returns, and what it
    leaves. *)
Lemma draw_body_returned (positions : list (@vec2 F)) (W Hh : Z) (SCALE : F)
  (n i : nat) (st st' : @draw_state F) :
  draw_body positions W Hh SCALE n i st = Returned st' ->
  exists p xy t l,
    getitem positions i = Returned p /\
    to_screen_coords p W Hh SCALE = Returned xy /\
    getitem (ds_trajectories st) i = Returned t /\
    trail_drawn W Hh SCALE t l /\
    st' = DrawState (ds_screen st ++ l ++ [Circle (body_colour i) xy 7%Z])
            (setitem (ds_trajectories st) i (evicted_once n t))
            (ds_poplefts st + (if n <? deque_len t then 1 else 0)).
Proof.
  unfold draw_body, trail_drawn. intros E.
  apply bind_returned in E as (p & Ep & E).
  apply bind_returned in E as (xy & Exy & E).
  apply bind_returned in E as (t & Et & E).
  apply bind_returned in E as (screen1 & Es & E).
  rewrite evict_if_longer_once in E. cbn [bind fst snd] in E.
  exists p, xy, t.
  assert (Htr : setitem (ds_trajectories st) i (evicted_once n t)
                = if n <? deque_len t
                  then setitem (ds_trajectories st) i (evicted_once n t)
                  else ds_trajectories st).
  { unfold evicted_once. destruct (n <? deque_len t); [reflexivity|].
    apply setitem_same, Et. }
  assert (Hp : ds_poplefts st + (if n <? deque_len t then 1 else 0)
               = if n <? deque_len t then S (ds_poplefts st) else ds_poplefts st).
  { destruct (n <? deque_len t); lia. }
  rewrite Htr, Hp.
  destruct (2 <? deque_len t).
  - apply bind_returned in Es as (pts & Epts & Es). injection Es as <-.
    exists [Lines GREY false pts 1%Z].
    repeat (split; [first [eassumption | eexists; split; [eassumption | reflexivity]]|]).
    injection E as <-. rewrite <- app_assoc. reflexivity.
  - injection Es as <-. exists [].
    repeat (split; [first [eassumption | reflexivity]|]).
    injection E as <-. reflexivity.
Qed.

(** X10.  One call of [draw_simulation] on three positions and three
    trajectories that returns: [to_screen_coords] has returned on the three
    positions and on every entry of each trajectory of more than two
    entries; the calls issued are, in this order, [fill(BLACK)], and for
    each body the trail of its trajectory as it was on entry (one [lines]
    call, none for a trajectory of at most two entries) and a circle of
    radius 7 at its position, green, red and aqua, and last [flip()]; each
    trajectory longer than [max_orbit_length] has lost its oldest entry,
    and only that one, the others are as they were. *)
Theorem draw_simulation_frame (st st' : @draw_state F) (p0 p1 p2 : @vec2 F)
  (t0 t1 t2 : deque (@vec2 F)) (W Hh : Z) (SCALE : F) (n : nat) :
  ds_trajectories st = [t0; t1; t2] ->
  draw_simulation st [p0; p1; p2] W Hh SCALE n = Returned st' ->
  exists xy0 xy1 xy2 l0 l1 l2,
    to_screen_coords p0 W Hh SCALE = Returned xy0 /\
    to_screen_coords p1 W Hh SCALE = Returned xy1 /\
    to_screen_coords p2 W Hh SCALE = Returned xy2 /\
    trail_drawn W Hh SCALE t0 l0 /\
    trail_drawn W Hh SCALE t1 l1 /\
    trail_drawn W Hh SCALE t2 l2 /\
    st' = DrawState
            (ds_screen st ++ [Fill BLACK]
             ++ l0 ++ [Circle GREEN xy0 7%Z]
             ++ l1 ++ [Circle RED xy1 7%Z]
             ++ l2 ++ [Circle AQUA xy2 7%Z]
             ++ [Flip])
            [evicted_once n t0; evicted_once n t1; evicted_once n t2]
            (ds_poplefts st + count_longer n [t0; t1; t2]).
Proof.
  intros Ht E. unfold draw_simulation in E. rewrite Ht in E.
  cbn [range seq for_each] in E.
  apply bind_returned in E as (s3 & E & R). injection R as <-.
  apply bind_returned in E as (s1 & E0 & E).
  apply bind_returned in E as (s2 & E1 & E).
  apply bind_returned in E as (s3' & E2 & E). injection E as ->.
  apply draw_body_returned in E0 as (q0 & xy0 & u0 & l0 & G0 & C0 & T0 & L0 & ->).
  cbn in G0, T0. injection G0 as <-. injection T0 as <-.
  apply draw_body_returned in E1 as (q1 & xy1 & u1 & l1 & G1 & C1 & T1 & L1 & ->).
  cbn in G1, T1. injection G1 as <-. injection T1 as <-.
  apply draw_body_returned in E2 as (q2 & xy2 & u2 & l2 & G2 & C2 & T2 & L2 & ->).
  cbn in G2, T2. injection G2 as <-. injection T2 as <-.
  exists xy0, xy1, xy2, l0, l1, l2.
  repeat (split; [assumption|]).
  cbn [ds_screen ds_trajectories ds_poplefts setitem body_colour Nat.eqb].
  f_equal.
  - rewrite <- !app_assoc. reflexivity.
  - unfold count_longer. cbn [filter].
    destruct (n <? deque_len t0), (n <? deque_len t1), (n <? deque_len t2);
      cbn [length]; lia.
Qed.

Lemma setitem_length {A : Type} (x : A) (a : list A) : forall i,
  length (setitem a i x) = length a.
Proof. induction a as [|h a IH]; intros [|i]; cbn; auto. Qed.

(** Drawing neither adds nor removes a trajectory. *)
Lemma draw_body_length (positions : list (@vec2 F)) (W Hh : Z) (SCALE : F)
  (n i : nat) (st st' : @draw_state F) :
  draw_body positions W Hh SCALE n i st = Returned st' ->
  length (ds_trajectories st') = length (ds_trajectories st).
Proof.
  intros E. apply draw_body_returned in E as (p & xy & t & l & _ & _ & _ & _ & ->).
  apply setitem_length.
Qed.

Lemma draw_simulation_length (st st' : @draw_state F) (positions : list (@vec2 F))
  (W Hh : Z) (SCALE : F) (n : nat) :
  draw_simulation st positions W Hh SCALE n = Returned st' ->
  length (ds_trajectories st') = length (ds_trajectories st).
Proof.
  intros E. unfold draw_simulation in E.
  apply bind_returned in E as (s1 & E & R). injection R as <-.
  cbn [ds_trajectories]. revert E.
  apply (for_each_preserves
           (fun s => length (ds_trajectories s) = length (ds_trajectories st)));
    [|reflexivity].
  intros i s s' Hs E. rewrite (draw_body_length _ _ _ _ _ _ _ E). exact Hs.
Qed.

End Rendering.

(** ** The loop of [main] *)

Section LoopRuns.

Context {F : Type} `{Float64Ops F}.

(** The last entry of a list with one entry more in front. *)
Lemma last_cons {A : Type} (l : list A) : forall a d : A,
  last (a :: l) d = last l a.
Proof.
  induction l as [|b l IH]; intros a d; [reflexivity|].
  change (last (a :: b :: l) d) with (last (b :: l) d).
  rewrite (IH b d), (IH b a). reflexivity.
Qed.

(** [n] iterations from any world with three bounded trajectories: the
    states are those of [n] successive steps, and each trajectory holds its
    last entries and the new positions, cut to [max_orbit_length]. *)
Lemma iterate_history (c : @config F) (n : nat) : forall (w w' : @world F)
  (t0 t1 t2 : deque (@vec2 F)),
  ds_trajectories (w_draw w) = [t0; t1; t2] ->
  bounded_by (c_max_orbit_length c) t0 ->
  bounded_by (c_max_orbit_length c) t1 ->
  bounded_by (c_max_orbit_length c) t2 ->
  iterate c n w = Returned w' ->
  exists states u0 u1 u2,
    orbit (c_masses c) (c_dt c) n (w_state w) = Returned states /\
    length states = n /\
    w_state w' = last states (w_state w) /\
    ds_trajectories (w_draw w') = [u0; u1; u2] /\
    items u0 = lastn (c_max_orbit_length c)
                 (items t0 ++ map (fun s => position_of s 0) states) /\
    items u1 = lastn (c_max_orbit_length c)
                 (items t1 ++ map (fun s => position_of s 1) states) /\
    items u2 = lastn (c_max_orbit_length c)
                 (items t2 ++ map (fun s => position_of s 2) states).
Proof.
  induction n as [|n IH]; intros w w' t0 t1 t2 Ht B0 B1 B2 E; cbn [iterate orbit] in *.
  - injection E as <-. exists [], t0, t1, t2. cbn [map last length]. rewrite !app_nil_r.
    repeat (split; [reflexivity || assumption|]).
    repeat split; symmetry; apply lastn_all; [apply B0|apply B1|apply B2].
  - apply bind_returned in E as (w1 & E1 & E2).
    apply main_iteration_returned in E1 as (r & Eu & Hs & Ea & _).
    2:{ rewrite Ht.
        apply Forall_cons; [exact B0|]. apply Forall_cons; [exact B1|].
        apply Forall_cons; [exact B2|]. apply Forall_nil. }
    apply update_simulation_returned in Eu as (_ & _ & Er & _ & Ep).
    rewrite Ep, Ht, append_positions_three in Ea. injection Ea as Ea.
    destruct (deque_append_bounded (position_of (fst r) 0) B0) as [C0 I0].
    destruct (deque_append_bounded (position_of (fst r) 1) B1) as [C1 I1].
    destruct (deque_append_bounded (position_of (fst r) 2) B2) as [C2 I2].
    destruct (IH w1 w' _ _ _ (eq_sym Ea) C0 C1 C2 E2)
      as (states & u0 & u1 & u2 & Eo & Ln & Hl & Hu & J0 & J1 & J2).
    exists (fst r :: states), u0, u1, u2.
    rewrite Er. cbn [bind]. rewrite <- Hs, Eo. cbn [bind].
    split; [reflexivity|]. split; [cbn [length]; congruence|].
    split; [rewrite last_cons; exact Hl|]. split; [exact Hu|].
    cbn [map]. rewrite Hs.
    rewrite J0, J1, J2, I0, I1, I2, !lastn_app_lastn, <- !app_assoc.
    repeat split; reflexivity.
Qed.

(** X11.  What the loop of [main] has computed after [n] completed
    iterations, for every [max_orbit_length]: the state vector is the last
    of [n] successive [runge_kutta_step]s from the initial state (the
    initial state itself when [n = 0]), and the trajectory of body [i]
    holds the positions of body [i] in the last [max_orbit_length] of these
    [n] states, oldest first; each of the three trajectories has
    [min n max_orbit_length] entries. *)
Theorem main_loop_history (max_orbit_length n : nat) (w : @world F) :
  let c := fst (@main_setup F _ max_orbit_length) in
  let w0 := snd (@main_setup F _ max_orbit_length) in
  iterate c n w0 = Returned w ->
  exists states t0 t1 t2,
    orbit (c_masses c) (c_dt c) n (w_state w0) = Returned states /\
    length states = n /\
    w_state w = last states (w_state w0) /\
    ds_trajectories (w_draw w) = [t0; t1; t2] /\
    items t0 = lastn max_orbit_length (map (fun s => position_of s 0) states) /\
    items t1 = lastn max_orbit_length (map (fun s => position_of s 1) states) /\
    items t2 = lastn max_orbit_length (map (fun s => position_of s 2) states) /\
    Forall (fun t => deque_len t = Nat.min n max_orbit_length) [t0; t1; t2].
Proof.
  cbv zeta. intros E.
  destruct (@iterate_history (fst (main_setup max_orbit_length)) n
              (snd (main_setup max_orbit_length)) w
              (deque_new max_orbit_length) (deque_new max_orbit_length)
              (deque_new max_orbit_length) eq_refl
              (deque_new_bounded max_orbit_length)
              (deque_new_bounded max_orbit_length)
              (deque_new_bounded max_orbit_length) E)
    as (states & t0 & t1 & t2 & Eo & Ln & Hl & Ht & I0 & I1 & I2).
  exists states, t0, t1, t2.
  repeat (split; [assumption|]).
  assert (Hlen : forall (i : nat) (t : deque (@vec2 F)),
             items t = lastn max_orbit_length (map (fun s => position_of s i) states) ->
             deque_len t = Nat.min n max_orbit_length).
  { intros i t Hi. unfold deque_len. rewrite Hi, lastn_length, length_map. lia. }
  apply Forall_cons; [exact (Hlen 0 t0 I0)|].
  apply Forall_cons; [exact (Hlen 1 t1 I1)|].
  apply Forall_cons; [exact (Hlen 2 t2 I2)|]. apply Forall_nil.
Qed.

(** *** The steps of an iteration that cannot fail *)

(** An iteration that completes leaves a state vector of 12 entries and
    three trajectories. *)
Lemma main_iteration_lengths (c : @config F) (w w' : @world F) :
  length (ds_trajectories (w_draw w)) = 3 ->
  main_iteration c w = Returned w' ->
  length (w_state w') = 12 /\ length (ds_trajectories (w_draw w')) = 3.
Proof.
  intros Lt E. unfold main_iteration in E.
  apply bind_returned in E as (r & Eu & E).
  apply bind_returned in E as (trajs & Ea & E).
  apply bind_returned in E as (st & Ed & E).
  injection E as <-. cbn [w_state w_draw].
  apply update_simulation_returned in Eu as (_ & _ & _ & L & Ep).
  split; [exact L|].
  rewrite (draw_simulation_length _ _ _ _ _ _ Ed). cbn [ds_trajectories].
  destruct (ds_trajectories (w_draw w)) as [|t0 [|t1 [|t2 [|t3 ts]]]];
    try discriminate Lt.
  rewrite Ep, append_positions_three in Ea. injection Ea as <-. reflexivity.
Qed.

Lemma iterate_lengths (c : @config F) (n : nat) : forall w w' : @world F,
  length (w_state w) = 12 ->
  length (ds_trajectories (w_draw w)) = 3 ->
  iterate c n w = Returned w' ->
  length (w_state w') = 12 /\ length (ds_trajectories (w_draw w')) = 3.
Proof.
  induction n as [|n IH]; intros w w' Ls Lt E; cbn [iterate] in E.
  - injection E as <-. split; assumption.
  - apply bind_returned in E as (w1 & E1 & E2).
    destruct (main_iteration_lengths c w Lt E1) as [Ls1 Lt1].
    exact (IH w1 w' Ls1 Lt1 E2).
Qed.

(** X12.  The steps of an iteration that cannot fail.  Started with three
    masses, a state vector of 12 entries and three trajectories, whatever
    they hold, after any number of completed iterations the state vector
    has 12 entries and there are three trajectories; so in the next
    iteration [update_simulation] returns, with three positions, the three
    appends of lines 106-107 return, and the guarded [popleft] of lines
    79-80 returns on every deque, as a deque longer than
    [max_orbit_length] is not empty: none of them raises. *)
Theorem main_loop_steps_return (c : @config F) (n : nat) (w w' : @world F) :
  length (c_masses c) = 3 ->
  length (w_state w) = 12 ->
  length (ds_trajectories (w_draw w)) = 3 ->
  iterate c n w = Returned w' ->
  length (w_state w') = 12 /\
  length (ds_trajectories (w_draw w')) = 3 /\
  (exists new_state positions trajs,
     update_simulation (w_state w') (c_masses c) (c_dt c)
     = Returned (new_state, positions) /\
     length positions = 3 /\
     append_positions positions (ds_trajectories (w_draw w')) = Returned trajs /\
     length trajs = 3) /\
  (forall t : deque (@vec2 F),
     evict_if_longer (c_max_orbit_length c) t
     = Returned (evicted_once (c_max_orbit_length c) t,
                 c_max_orbit_length c <? deque_len t)).
Proof.
  intros Lm Ls Lt E.
  destruct (iterate_lengths c n w Ls Lt E) as [Ls' Lt'].
  split; [exact Ls'|]. split; [exact Lt'|]. split; [|apply evict_if_longer_once].
  destruct (update_simulation_total (w_state w') (c_masses c) (c_dt c) Ls' Lm)
    as (ns & _ & _ & Eu).
  destruct (ds_trajectories (w_draw w')) as [|t0 [|t1 [|t2 [|t3 ts]]]];
    try discriminate Lt'.
  eexists. eexists. eexists.
  split; [exact Eu|]. split; [reflexivity|].
  split; [apply append_positions_three|reflexivity].
Qed.

End LoopRuns.

(** ** [to_screen_coords] on binary64 *)

Section ScreenBinary64.

Import Binary64.

(** Rounding is symmetric in the sign. *)
Lemma binary_round_aux_opp (s : bool) (m e : Z) (l : SpecFloat.location) :
  binary_round_aux prec emax (negb s) m e l
  = SFopp (binary_round_aux prec emax s m e l).
Proof.
  unfold binary_round_aux.
  destruct (shr_fexp prec emax m e l) as [mrs e'].
  match goal with |- context [shr_fexp prec emax ?a ?b ?c] =>
    destruct (shr_fexp prec emax a b c) as [mrs2 e2] end.
  destruct (shr_m mrs2); [reflexivity| |reflexivity].
  match goal with |- context [if ?b then _ else _] => destruct b end; reflexivity.
Qed.

(** IEEE division of the opposite is the opposite of the division. *)
Lemma float_div_opp (x s : float) : ((- x) / s = - (x / s))%float.
Proof.
  apply Prim2SF_inj. rewrite opp_spec, !div_spec, opp_spec.
  destruct (Prim2SF x) as [sx|sx| |sx mx ex], (Prim2SF s) as [sy|sy| |sy my ey];
    cbn [SFopp SF64div SFdiv]; try reflexivity;
    try (destruct sx, sy; reflexivity).
  destruct (SFdiv_core_binary prec emax (Z.pos mx) ex (Z.pos my) ey) as [[mz ez] lz].
  rewrite <- binary_round_aux_opp. f_equal. destruct sx, sy; reflexivity.
Qed.

(** [int(-z) = -int(z)], with the same exceptions. *)
Lemma float_to_int_opp (z : float) :
  float_to_int (- z) = outcome_map Z.opp (float_to_int z).
Proof.
  unfold float_to_int. rewrite opp_spec.
  destruct (Prim2SF z) as [s|s| |s m e]; cbn [SFopp outcome_map]; try reflexivity.
  f_equal. destruct s; cbn [negb]; lia.
Qed.

(** X14.  On binary64 [to_screen_coords] maps the point reflection of the
    plane in the origin to the point reflection of the screen in
    [(WIDTH // 2, HEIGHT // 2)]: the opposite position has the same
    outcome, with the opposite pixel when it returns.  ([int()] rounds
    toward zero, so that the two sides of the origin are treated alike.) *)
Theorem to_screen_coords_reflection (x y SCALE : float) (W Hh : Z) :
  to_screen_coords (H := ops) (- x, - y)%float W Hh SCALE
  = outcome_map (opposite W Hh) (to_screen_coords (H := ops) (x, y) W Hh SCALE).
Proof.
  unfold to_screen_coords. cbn [fst snd fdiv to_int ops].
  rewrite !float_div_opp, !float_to_int_opp.
  destruct (float_to_int (x / SCALE)) as [ix|e]; cbn [bind outcome_map]; [|reflexivity].
  destruct (float_to_int (y / SCALE)) as [iy|e]; cbn [bind outcome_map]; [|reflexivity].
  unfold opposite. cbn [fst snd]. f_equal. f_equal; lia.
Qed.

(** [int()] returns on the finite floats and on no other. *)
Lemma float_to_int_finite (z : float) :
  match float_to_int z with
  | Returned _ => float_is_finite z = true
  | Raised e => float_is_finite z = false /\ (e = ValueError \/ e = OverflowError)
  end.
Proof.
  unfold float_to_int, float_is_finite.
  destruct (Prim2SF z); auto.
Qed.

(** A division by zero is infinite or NaN. *)
Lemma float_div_zero (x s : float) :
  PrimFloat.eqb s 0 = true -> float_is_finite (x / s) = false.
Proof.
  rewrite eqb_spec. unfold float_is_finite. rewrite div_spec.
  change (Prim2SF 0) with (S754_zero false). intros Hs.
  destruct (Prim2SF s) as [sy|sy| |sy my ey];
    try (destruct sy; discriminate Hs); try discriminate Hs.
  destruct (Prim2SF x); reflexivity.
Qed.

(** Zero divided by a non-zero number is zero. *)
Lemma float_zero_div (s : float) :
  PrimFloat.eqb s 0 = false -> PrimFloat.eqb s s = true ->
  float_to_int (0 / s) = Returned 0%Z.
Proof.
  rewrite !eqb_spec. unfold float_to_int. rewrite div_spec.
  change (Prim2SF 0) with (S754_zero false). intros Hz Hn.
  destruct (Prim2SF s) as [sy|sy| |sy my ey]; cbn [SF64div SFdiv];
    try reflexivity; try discriminate Hn.
  destruct sy; discriminate Hz.
Qed.

(** The outcomes of [to_screen_coords], by the two scaled coordinates. *)
Lemma to_screen_coords_cases (position : float * float) (W Hh : Z) (SCALE : float) :
  ((exists xy, to_screen_coords (H := ops) position W Hh SCALE = Returned xy) <->
   float_is_finite (fst position / SCALE) = true /\
   float_is_finite (snd position / SCALE) = true) /\
  (forall e, to_screen_coords (H := ops) position W Hh SCALE = Raised e ->
             e = ValueError \/ e = OverflowError) /\
  (PrimFloat.eqb SCALE 0 = true ->
   exists e, to_screen_coords (H := ops) position W Hh SCALE = Raised e).
Proof.
  unfold to_screen_coords. cbn [fdiv to_int ops].
  pose proof (float_to_int_finite (fst position / SCALE)) as Hx.
  pose proof (float_to_int_finite (snd position / SCALE)) as Hy.
  pose proof (@float_div_zero (fst position) SCALE) as Hz.
  destruct (float_to_int (fst position / SCALE)) as [ix|ex]; cbn [bind].
  - rewrite Hx in Hz.
    destruct (float_to_int (snd position / SCALE)) as [iy|ey]; cbn [bind].
    + split; [split; [intros _; split; assumption|intros _; eexists; reflexivity]|].
      split; [intros e E; discriminate E|].
      intros Hs. specialize (Hz Hs). discriminate Hz.
    + destruct Hy as [Hy He].
      split; [split; [intros [xy E]; discriminate E|intros [_ Hf]; congruence]|].
      split; [intros e E; injection E as <-; exact He|].
      intros _. eexists. reflexivity.
  - destruct Hx as [Hx He].
    split; [split; [intros [xy E]; discriminate E|intros [Hf _]; congruence]|].
    split; [intros e E; injection E as <-; exact He|].
    intros _. eexists. reflexivity.
Qed.

(** X15.  On binary64 [to_screen_coords] returns exactly when both
    coordinates divided by [SCALE] are finite; it raises nothing but
    [ValueError] (on a NaN) and [OverflowError] (on an infinity); with
    [SCALE] equal to zero it raises on every position: the division itself
    raises nothing, its result is infinite or NaN; and with any other
    [SCALE] that is not NaN the origin is mapped to the centre
    [(WIDTH // 2, HEIGHT // 2)]. *)
Theorem to_screen_coords_outcomes (position : float * float) (W Hh : Z) (SCALE : float) :
  ((exists xy, to_screen_coords (H := ops) position W Hh SCALE = Returned xy) <->
   float_is_finite (fst position / SCALE) = true /\
   float_is_finite (snd position / SCALE) = true) /\
  (forall e, to_screen_coords (H := ops) position W Hh SCALE = Raised e ->
             e = ValueError \/ e = OverflowError) /\
  (PrimFloat.eqb SCALE 0 = true ->
   exists e, to_screen_coords (H := ops) position W Hh SCALE = Raised e) /\
  (PrimFloat.eqb SCALE 0 = false -> PrimFloat.eqb SCALE SCALE = true ->
   to_screen_coords (H := ops) (0, 0)%float W Hh SCALE = Returned (W / 2, Hh / 2)%Z).
Proof.
  destruct (to_screen_coords_cases position W Hh SCALE) as (Hret & Hkind & Hzero).
  split; [exact Hret|]. split; [exact Hkind|]. split; [exact Hzero|].
  intros Hz Hn. unfold to_screen_coords. cbn [fst snd fdiv to_int ops].
  rewrite (float_zero_div Hz Hn). cbn [bind].
  rewrite Z.add_0_r, Z.sub_0_r. reflexivity.
Qed.

End ScreenBinary64.

(** ** Newton's third law on binary64 *)

Section ThirdLawBinary64.

Local Open Scope float_scope.

(** Rounding to binary64 is symmetric in the sign. *)
Lemma binary_round_opp (s : bool) (m : positive) (e : Z) :
  binary_round prec emax (negb s) m e = SFopp (binary_round prec emax s m e).
Proof.
  unfold binary_round.
  destruct (shl_align m e (fexp prec emax (Z.pos (digits2_pos m) + e))) as [mz ez].
  apply binary_round_aux_opp.
Qed.

(** [x - y] and [y - x] are opposite numbers, or both are [+0]. *)
Lemma mirrored_sub (x y : float) : mirrored (x - y) (y - x).
Proof.
  unfold mirrored. rewrite !sub_spec.
  destruct (Prim2SF x) as [sx|sx| |sx mx ex], (Prim2SF y) as [sy|sy| |sy my ey];
    cbn [SF64sub SFsub SFopp];
    try (left; reflexivity);
    try (destruct sx, sy; (left; reflexivity) || (right; split; eexists; reflexivity));
    try (destruct sx; left; reflexivity);
    try (destruct sy; left; reflexivity).
  change IntDef.Z.min with Z.min.
  rewrite (Z.min_comm ey ex).
  set (ez := Z.min ex ey).
  set (A := cond_Zopp sx (Z.pos (fst (shl_align mx ex ez)))).
  set (B := cond_Zopp sy (Z.pos (fst (shl_align my ey ez)))).
  replace (B - A)%Z with (- (A - B))%Z by lia.
  destruct (A - B)%Z as [|p|p]; cbn [Z.opp binary_normalize].
  - right. split; eexists; reflexivity.
  - left. apply (binary_round_opp false).
  - left. apply (binary_round_opp true).
Qed.

(** Opposite numbers have the same square. *)
Lemma mirrored_square (a b : float) : mirrored a b -> a * a = b * b.
Proof.
  intros [Hopp|[[s Ha] [s' Hb]]]; apply Prim2SF_inj; rewrite !mul_spec.
  - rewrite Hopp. destruct (Prim2SF a) as [sa|sa| |sa ma ea]; cbn [SFopp SF64mul SFmul];
      try reflexivity; destruct sa; reflexivity.
  - rewrite Ha, Hb. destruct s, s'; reflexivity.
Qed.

(** The products and the quotients of opposite numbers by the same number
    are opposite. *)
Lemma mirrored_mul (c a b : float) : mirrored a b -> mirrored (c * a) (c * b).
Proof.
  unfold mirrored. rewrite !mul_spec.
  intros [Hopp|[[s Ha] [s' Hb]]].
  - left. rewrite Hopp.
    destruct (Prim2SF c) as [sc|sc| |sc mc ec], (Prim2SF a) as [sa|sa| |sa ma ea];
      cbn [SFopp SF64mul SFmul]; try reflexivity;
      try (destruct sc, sa; reflexivity).
    rewrite <- binary_round_aux_opp. f_equal. destruct sc, sa; reflexivity.
  - rewrite Ha, Hb.
    destruct (Prim2SF c) as [sc|sc| |sc mc ec]; cbn [SFopp SF64mul SFmul];
      try (left; reflexivity); right; split; eexists; reflexivity.
Qed.

Lemma mirrored_div (q a b : float) : mirrored a b -> mirrored (a / q) (b / q).
Proof.
  unfold mirrored. rewrite !div_spec.
  intros [Hopp|[[s Ha] [s' Hb]]].
  - left. rewrite Hopp.
    destruct (Prim2SF a) as [sa|sa| |sa ma ea], (Prim2SF q) as [sq|sq| |sq mq eq];
      cbn [SFopp SF64div SFdiv]; try reflexivity;
      try (destruct sa, sq; reflexivity).
    destruct (SFdiv_core_binary prec emax (Z.pos ma) ea (Z.pos mq) eq) as [[mz ez] lz].
    rewrite <- binary_round_aux_opp. f_equal. destruct sa, sq; reflexivity.
  - rewrite Ha, Hb.
    destruct (Prim2SF q) as [sq|sq| |sq mq eq]; cbn [SFopp SF64div SFdiv];
      try (left; reflexivity); right; split; eexists; reflexivity.
Qed.

(** A number that is not NaN equals itself. *)
Lemma SFeqb_refl (x : spec_float) : x <> S754_nan -> SFeqb x x = true.
Proof.
  intros Hx. unfold SFeqb, SFcompare.
  destruct x as [s|s| |s m e]; [reflexivity|destruct s; reflexivity|contradiction Hx; reflexivity|].
  change PosDef.Pos.compare_cont with Pos.compare_cont.
  rewrite Z.compare_refl, Pos.compare_cont_refl. destruct s; reflexivity.
Qed.

(** A number equals the negation of its opposite. *)
Lemma mirrored_same (a b : float) : mirrored a b -> same_number a (- b).
Proof.
  unfold same_number. rewrite eqb_spec, opp_spec.
  intros [Hopp|[[s Ha] [s' Hb]]].
  - rewrite Hopp.
    assert (Hinv : SFopp (SFopp (Prim2SF a)) = Prim2SF a)
      by (destruct (Prim2SF a) as [sa|sa| |sa ma ea]; cbn; try reflexivity;
          destruct sa; reflexivity).
    rewrite Hinv.
    destruct (Prim2SF a) as [sa|sa| |sa ma ea] eqn:Ea;
      try (left; apply SFeqb_refl; discriminate).
    right. split; reflexivity.
  - rewrite Ha, Hb. left. reflexivity.
Qed.

(** C5 (amended).  On binary64, for two masses whose products [G*m1*m2]
    and [G*m2*m1], each taken from left to right and rounded twice, are the
    same number (two equal masses, as the masses of the program are), and
    for all positions, each component of the force on the first body is
    the negated component of the force on the second, as numpy compares
    them, or both are NaN.  This holds whatever [**] computes: [r**3] is
    the same number for both bodies. *)
Theorem third_law_binary64 (pow : float -> nat -> float) (m1 m2 : float)
  (r1 r2 : float * float) :
  6.67430e-11 * m1 * m2 = 6.67430e-11 * m2 * m1 ->
  same_number
    (fst (gravitational_force (H := Binary64.ops_with pow) m1 m2 r1 r2))
    (fst (vneg (H := Binary64.ops_with pow)
            (gravitational_force (H := Binary64.ops_with pow) m2 m1 r2 r1))) /\
  same_number
    (snd (gravitational_force (H := Binary64.ops_with pow) m1 m2 r1 r2))
    (snd (vneg (H := Binary64.ops_with pow)
            (gravitational_force (H := Binary64.ops_with pow) m2 m1 r2 r1))).
Proof.
  intros Hc. destruct r1 as [x1 y1], r2 as [x2 y2].
  unfold gravitational_force, norm, vsub. cbv zeta.
  cbn [fst snd fsub fmul fadd fsqrt fpow feqb f0 lit_G Binary64.ops_with] in *.
  pose proof (mirrored_sub x2 x1) as Mx. pose proof (mirrored_sub y2 y1) as My.
  rewrite <- (mirrored_square Mx), <- (mirrored_square My).
  rewrite <- Hc.
  set (r := PrimFloat.sqrt ((x2 - x1) * (x2 - x1) + (y2 - y1) * (y2 - y1))).
  destruct (PrimFloat.eqb r 0).
  - split; left; reflexivity.
  - unfold vneg, vdiv, vscale.
    cbn [fst snd fmul fdiv fneg Binary64.ops_with].
    split; apply mirrored_same, mirrored_div, mirrored_mul; assumption.
Qed.

End ThirdLawBinary64.

(** ** The stepper on the store *)

Section StoreFacts.

Context {F : Type} `{Float64Ops F}.

Local Open Scope cmd_scope.

(** The objects of a store that has grown by [l]: those that were there,
    and those of [l]. *)
Lemma sel_app_old (p : ref) (st l : store (F := F)) :
  p < length st -> sel p (st ++ l) = sel p st.
Proof. intros Hp. unfold sel. apply app_nth1. exact Hp. Qed.

Lemma sel_app_new (k : nat) (st l : store (F := F)) :
  sel (length st + k) (st ++ l) = nth k l [].
Proof. unfold sel. apply app_nth2_plus. Qed.

Lemma sel_app_here (st l : store (F := F)) :
  sel (length st) (st ++ l) = nth 0 l [].
Proof. rewrite <- (Nat.add_0_r (length st)) at 1. apply sel_app_new. Qed.

(** Writing into an object of [l]. *)
Lemma setitem_app_new (a : list F) (k : nat) (st l : store (F := F)) :
  setitem (st ++ l) (length st + k) a = st ++ setitem l k a.
Proof. induction st as [|x st IH]; [reflexivity|]. cbn. now rewrite IH. Qed.

Lemma setitem_app_here (a : list F) (st l : store (F := F)) :
  setitem (st ++ l) (length st) a = st ++ setitem l 0 a.
Proof. rewrite <- (Nat.add_0_r (length st)) at 1. apply setitem_app_new. Qed.

(** The outcome of two commands in sequence. *)
Lemma seq_cmd_returned {A B : Type} (c : cmd A) (k : A -> cmd B) (st st1 : store (F := F))
  (a : A) :
  c st = Returned (a, st1) -> seq_cmd c k st = k a st1.
Proof. intros E. unfold seq_cmd. rewrite E. reflexivity. Qed.

Lemma seq_cmd_raised {A B : Type} (c : cmd A) (k : A -> cmd B) (st : store (F := F))
  (e : failure) :
  c st = Raised e -> seq_cmd c k st = Raised e.
Proof. intros E. unfold seq_cmd. rewrite E. reflexivity. Qed.

Lemma seq_cmd_run {A B : Type} (c : cmd A) (k : A -> cmd B) (st : store (F := F)) :
  seq_cmd c k st
  = match c st with
    | Returned (a, st') => k a st'
    | Raised e => Raised e
    end.
Proof. reflexivity. Qed.

(** The outcome of a command that reads what a pure computation needs and
    changes nothing. *)
Lemma lift_run {A : Type} (c : outcome A) (st : store (F := F)) :
  lift c st = match c with Returned a => Returned (a, st) | Raised e => Raised e end.
Proof. reflexivity. Qed.

(** The outcome of each elementary command. *)
Lemma new_run (a : list F) (st : store (F := F)) :
  new a st = Returned (length st, st ++ [a]).
Proof. reflexivity. Qed.

Lemma entries_run (p : ref) (st : store (F := F)) :
  entries p st = Returned (sel p st, st).
Proof. reflexivity. Qed.

Lemma write_run (p : ref) (off : nat) (vals : list F) (st : store (F := F)) :
  write p off vals st = Returned (tt, setitem st p (splice (sel p st) off vals)).
Proof. reflexivity. Qed.

Lemma item_run (p : ref) (i : nat) (st : store (F := F)) :
  item p i st
  = match getitem (sel p st) i with
    | Returned x => Returned (x, st)
    | Raised e => Raised e
    end.
Proof. reflexivity. Qed.

Lemma rows_run (v : view) (st : store (F := F)) :
  rows v st
  = match reshape_3_2 (window v (sel (base v) st)) with
    | Returned rs => Returned (rs, st)
    | Raised e => Raised e
    end.
Proof. reflexivity. Qed.

Lemma row_run (v : view) (i : nat) (st : store (F := F)) :
  row v i st
  = match reshape_3_2 (window v (sel (base v) st)) with
    | Returned rs =>
        match getitem rs i with
        | Returned r => Returned (r, st)
        | Raised e => Raised e
        end
    | Raised e => Raised e
    end.
Proof.
  unfold row, seq_cmd. rewrite rows_run.
  destruct (reshape_3_2 (window v (sel (base v) st))); reflexivity.
Qed.

Lemma reshape_view_run (p : ref) (w : list F -> list F) (st : store (F := F)) :
  reshape_view p w st
  = match reshape_3_2 (w (sel p st)) with
    | Returned _ => Returned (View p w, st)
    | Raised e => Raised e
    end.
Proof.
  unfold reshape_view, seq_cmd, entries, lift, ret.
  destruct (reshape_3_2 (w (sel p st))); reflexivity.
Qed.

(** A [(3, 2)] array and its six entries. *)
Lemma reshape_flatten (rs : list (@vec2 F)) :
  length rs = 3 -> reshape_3_2 (flatten rs) = Returned rs.
Proof.
  intros L. destruct rs as [|[x0 y0] [|[x1 y1] [|[x2 y2] [|? ?]]]]; try discriminate L.
  reflexivity.
Qed.

Lemma reshape_length (a : list F) (rs : list (@vec2 F)) :
  reshape_3_2 a = Returned rs -> length rs = 3.
Proof.
  unfold reshape_3_2.
  do 6 (destruct a as [|? a]; [discriminate|]).
  destruct a; [|discriminate]. intros E. injection E as <-. reflexivity.
Qed.

(** Writing row [i] of a [(3, 2)] array writes entries [2i] and [2i + 1]. *)
Lemma splice_row (rs : list (@vec2 F)) (i : nat) (r f : @vec2 F) :
  length rs = 3 -> getitem rs i = Returned r ->
  splice (flatten rs) (2 * i) [fst f; snd f] = flatten (setitem rs i f).
Proof.
  intros L E. destruct rs as [|[x0 y0] [|[x1 y1] [|[x2 y2] [|? ?]]]]; try discriminate L.
  destruct f as [x y].
  destruct i as [|[|[|i]]]; [reflexivity|reflexivity|reflexivity|].
  unfold getitem in E. cbn in E. destruct i; discriminate E.
Qed.

Lemma force_body_cmd_run (st0 : store) (ps pm : ref) (positions : list (@vec2 F))
  (i j : nat) (forces : list (@vec2 F)) (st : store) :
  ps < length st0 -> pm < length st0 ->
  reshape_3_2 (firstn 6 (sel ps st0)) = Returned positions ->
  forces_in st0 forces st ->
  match force_body (sel pm st0) positions i j forces with
  | Returned forces' =>
      exists st',
        force_body_cmd pm (View ps (firstn 6)) (length st0) i j st = Returned (tt, st') /\
        forces_in st0 forces' st'
  | Raised e =>
      force_body_cmd pm (View ps (firstn 6)) (length st0) i j st = Raised e
  end.
Proof.
  intros Hps Hpm Hpos [L ->].
  unfold force_body, force_body_cmd.
  destruct (negb (i =? j)); [|exists (st0 ++ [flatten forces]); split; [reflexivity|split; [exact L|reflexivity]]].
  unfold seq_cmd. rewrite !item_run, (@sel_app_old pm st0 _ Hpm).
  destruct (getitem (sel pm st0) i) as [mi|e]; cbn [bind]; [|reflexivity].
  rewrite item_run, (@sel_app_old pm st0 _ Hpm).
  destruct (getitem (sel pm st0) j) as [mj|e]; cbn [bind]; [|reflexivity].
  rewrite row_run. cbn [base window]. rewrite (@sel_app_old ps st0 _ Hps), Hpos.
  destruct (getitem positions i) as [pi|e]; cbn [bind]; [|reflexivity].
  rewrite row_run. cbn [base window]. rewrite (@sel_app_old ps st0 _ Hps), Hpos.
  destruct (getitem positions j) as [pj|e]; cbn [bind]; [|reflexivity].
  rewrite row_run. cbn [base window]. rewrite sel_app_here. cbn [nth].
  rewrite (@reshape_flatten forces L).
  destruct (getitem forces i) as [fi|e] eqn:Ef; cbn [bind]; [|reflexivity].
  eexists. split.
  - unfold write. rewrite sel_app_here, setitem_app_here. cbn [nth setitem].
    rewrite (@splice_row forces i fi _ L Ef). reflexivity.
  - split; [rewrite setitem_length; exact L|reflexivity].
Qed.

(** A loop on the store follows the loop on values. *)
Lemma for_cmd_run {S : Type} (R : S -> store (F := F) -> Prop)
  (body : nat -> S -> outcome S) (body_cmd : nat -> cmd unit) (idx : list nat) :
  (forall i s st, R s st ->
     match body i s with
     | Returned s' => exists st', body_cmd i st = Returned (tt, st') /\ R s' st'
     | Raised e => body_cmd i st = Raised e
     end) ->
  forall s st, R s st ->
    match for_each idx body s with
    | Returned s' => exists st', for_cmd idx body_cmd st = Returned (tt, st') /\ R s' st'
    | Raised e => for_cmd idx body_cmd st = Raised e
    end.
Proof.
  intros Hbody. induction idx as [|i idx IH]; intros s st HR; cbn [for_each for_cmd].
  - exists st. split; [reflexivity|exact HR].
  - specialize (Hbody i s st HR).
    destruct (body i s) as [s1|e]; cbn [bind].
    + destruct Hbody as (st1 & E1 & HR1).
      rewrite seq_cmd_returned with (1 := E1). apply IH. exact HR1.
    + rewrite seq_cmd_raised with (1 := Hbody). reflexivity.
Qed.

(** Lines 36-37 fill the twelve entries of [dydt]. *)
Lemma splice_blocks (vs accel : list (@vec2 F)) :
  length vs = 3 -> length accel = 3 ->
  splice (splice (repeat f0 12) 0 (flatten vs)) 6 (flatten accel)
  = flatten vs ++ flatten accel.
Proof.
  intros Lv La.
  destruct vs as [|[x0 y0] [|[x1 y1] [|[x2 y2] [|? ?]]]]; try discriminate Lv.
  destruct accel as [|[u0 v0] [|[u1 v1] [|[u2 v2] [|? ?]]]]; try discriminate La.
  reflexivity.
Qed.

Lemma div_rows_length (forces accel : list (@vec2 F)) (masses : list F) :
  div_rows forces masses = Returned accel -> length forces = 3 -> length accel = 3.
Proof.
  unfold div_rows. intros E L.
  destruct (length masses =? length forces) eqn:El.
  - injection E as <-. apply Nat.eqb_eq in El.
    destruct forces as [|? [|? [|? [|? ?]]]]; try discriminate L.
    destruct masses as [|? [|? [|? [|? ?]]]]; try discriminate El. reflexivity.
  - destruct masses as [|m [|? ?]]; try discriminate E.
    injection E as <-. rewrite length_map. exact L.
Qed.

(** [derivatives] on the store: it returns a new object holding what
    [derivatives] on the entries returns, after one other new object (the
    array [forces]), and leaves every object that existed as it was; it
    raises what [derivatives] on the entries raises. *)
Lemma derivatives_cmd_run (st : store) (ps pm : ref) :
  ps < length st -> pm < length st ->
  match derivatives (sel ps st) (sel pm st) with
  | Returned d =>
      exists f, derivatives_cmd ps pm st = Returned (length st + 1, st ++ [f; d])
  | Raised e => derivatives_cmd ps pm st = Raised e
  end.
Proof.
  intros Hps Hpm. unfold derivatives, derivatives_cmd.
  rewrite seq_cmd_run. rewrite reshape_view_run.
  destruct (reshape_3_2 (firstn 6 (sel ps st))) as [positions|e] eqn:Epos; cbn [bind];
    [|reflexivity].
  rewrite seq_cmd_run. rewrite reshape_view_run.
  destruct (reshape_3_2 (skipn 6 (sel ps st))) as [velocities|e] eqn:Evel; cbn [bind];
    [|reflexivity].
  rewrite seq_cmd_run. rewrite new_run. cbv beta iota.
  pose proof (for_cmd_run (forces_in st)
                (fun i forces => for_each (range 3) (force_body (sel pm st) positions i) forces)
                (fun i => for_cmd (range 3)
                            (force_body_cmd pm (View ps (firstn 6)) (length st) i))
                (range 3)) as Hloop.
  unfold force_loops.
  specialize (Hloop
    (fun i s st1 HR =>
       for_cmd_run (forces_in st) (force_body (sel pm st) positions i)
         (force_body_cmd pm (View ps (firstn 6)) (length st) i) (range 3)
         (fun j s2 st2 HR2 => force_body_cmd_run i j Hps Hpm Epos HR2) s st1 HR)
    zeros_3_2 (st ++ [flatten zeros_3_2]) (conj eq_refl eq_refl)).
  destruct (for_each (range 3)
              (fun i forces => for_each (range 3) (force_body (sel pm st) positions i) forces)
              zeros_3_2) as [forces|e]; cbn [bind].
  2:{ rewrite seq_cmd_raised with (1 := Hloop). reflexivity. }
  destruct Hloop as (st1 & Eloop & Lf & ->).
  rewrite seq_cmd_returned with (1 := Eloop).
  rewrite seq_cmd_run. rewrite new_run. cbv beta iota.
  rewrite length_app, <- app_assoc. cbn [length app].
  rewrite seq_cmd_run. rewrite rows_run. cbn [base window].
  rewrite (@sel_app_old ps st _ Hps), Evel. cbv beta iota.
  rewrite seq_cmd_run. rewrite write_run. cbv beta iota.
  rewrite sel_app_new, setitem_app_new. cbn [nth setitem].
  rewrite seq_cmd_run. rewrite rows_run. cbn [base window].
  rewrite sel_app_here. cbn [nth]. rewrite (@reshape_flatten forces Lf). cbv beta iota.
  rewrite seq_cmd_run. rewrite entries_run. cbv beta iota. rewrite (@sel_app_old pm st _ Hpm).
  rewrite seq_cmd_run. rewrite lift_run.
  destruct (div_rows forces (sel pm st)) as [accel|e] eqn:Ediv; cbn [bind]; [|reflexivity].
  rewrite seq_cmd_run. rewrite write_run. cbv beta iota.
  rewrite sel_app_new, setitem_app_new. cbn [nth setitem].
  assert (Lv : length velocities = 3) by (eapply reshape_length; exact Evel).
  assert (La : length accel = 3) by (eapply div_rows_length; eassumption).
  rewrite (splice_blocks velocities accel Lv La).
  exists (flatten forces). reflexivity.
Qed.

(** The outcome of each arithmetic operation: a new object. *)
Lemma mul_scalar_cmd_run (p : ref) (c : F) (st : store) :
  mul_scalar_cmd p c st = Returned (length st, st ++ [arr_mul_scalar (sel p st) c]).
Proof. reflexivity. Qed.

Lemma scalar_mul_cmd_run (c : F) (p : ref) (st : store) :
  scalar_mul_cmd c p st = Returned (length st, st ++ [scalar_mul_arr c (sel p st)]).
Proof. reflexivity. Qed.

Lemma add_cmd_run (p q : ref) (st : store) :
  add_cmd p q st = Returned (length st, st ++ [arr_add (sel p st) (sel q st)]).
Proof. reflexivity. Qed.

Lemma div_scalar_cmd_run (p : ref) (c : F) (st : store) :
  div_scalar_cmd p c st = Returned (length st, st ++ [arr_div_scalar (sel p st) c]).
Proof. reflexivity. Qed.

(** [derivatives] on the store, in a store that has grown by [l]. *)
Lemma derivatives_cmd_grown (st l : store) (k : nat) (pm : ref) :
  k < length l -> pm < length st ->
  match derivatives (nth k l []) (sel pm st) with
  | Returned d =>
      exists f,
        derivatives_cmd (length st + k) pm (st ++ l)
        = Returned (length st + (length l + 1), st ++ (l ++ [f; d]))
  | Raised e => derivatives_cmd (length st + k) pm (st ++ l) = Raised e
  end.
Proof.
  intros Hk Hpm.
  assert (H1 : length st + k < length (st ++ l)) by (rewrite length_app; lia).
  assert (H2 : pm < length (st ++ l)) by (rewrite length_app; lia).
  pose proof (derivatives_cmd_run (st ++ l) H1 H2) as D.
  rewrite sel_app_new, (@sel_app_old pm st l Hpm) in D.
  destruct (derivatives (nth k l []) (sel pm st)) as [d|e]; [|exact D].
  destruct D as [f D]. exists f.
  rewrite D, length_app, <- app_assoc, <- Nat.add_assoc. reflexivity.
Qed.

Ltac grow :=
  rewrite ?length_app, <- ?app_assoc, <- ?Nat.add_assoc;
  cbn [length app Nat.add].

Ltac look Hps Hpm :=
  rewrite ?sel_app_new, ?(@sel_app_old _ _ _ Hps), ?(@sel_app_old _ _ _ Hpm);
  cbn [nth].

(** [runge_kutta_step] on the store: it returns a new object holding what
    [runge_kutta_step] on the entries returns, allocated last after the
    intermediate arrays [l], and leaves every object that existed as it
    was; it raises what [runge_kutta_step] on the entries raises. *)
Lemma runge_kutta_step_cmd_run (st : store) (ps pm : ref) (dt : F) :
  ps < length st -> pm < length st ->
  match runge_kutta_step (sel ps st) (sel pm st) dt with
  | Returned v =>
      exists l,
        runge_kutta_step_cmd ps pm dt st
        = Returned (length st + length l, st ++ l ++ [v])
  | Raised e => runge_kutta_step_cmd ps pm dt st = Raised e
  end.
Proof.
  intros Hps Hpm. unfold runge_kutta_step, runge_kutta_step_cmd.
  pose proof (derivatives_cmd_run st Hps Hpm) as D1.
  destruct (derivatives (sel ps st) (sel pm st)) as [d1|e]; cbn [bind];
    [|rewrite seq_cmd_raised with (1 := D1); reflexivity].
  destruct D1 as [f1 D1]. rewrite seq_cmd_returned with (1 := D1).
  rewrite seq_cmd_run, mul_scalar_cmd_run. cbv beta iota. grow. look Hps Hpm.
  rewrite seq_cmd_run, scalar_mul_cmd_run. cbv beta iota. grow. look Hps Hpm.
  rewrite seq_cmd_run, add_cmd_run. cbv beta iota. grow. look Hps Hpm.
  match goal with
  | |- context [seq_cmd (derivatives_cmd (length st + ?k) pm) _ (st ++ ?l)] =>
    pose proof (@derivatives_cmd_grown st l k pm ltac:(cbn [length]; lia) Hpm) as D2
  end.
  cbn [nth length Nat.add] in D2.
  match type of D2 with match derivatives ?a ?b with _ => _ end =>
    destruct (derivatives a b) as [d2|e] end; cbn [bind];
    [|rewrite seq_cmd_raised with (1 := D2); reflexivity].
  destruct D2 as [f2 D2]. rewrite seq_cmd_returned with (1 := D2). cbn [app].
  rewrite seq_cmd_run, mul_scalar_cmd_run. cbv beta iota. grow. look Hps Hpm.
  rewrite seq_cmd_run, scalar_mul_cmd_run. cbv beta iota. grow. look Hps Hpm.
  rewrite seq_cmd_run, add_cmd_run. cbv beta iota. grow. look Hps Hpm.
  match goal with
  | |- context [seq_cmd (derivatives_cmd (length st + ?k) pm) _ (st ++ ?l)] =>
    pose proof (@derivatives_cmd_grown st l k pm ltac:(cbn [length]; lia) Hpm) as D3
  end.
  cbn [nth length Nat.add] in D3.
  match type of D3 with match derivatives ?a ?b with _ => _ end =>
    destruct (derivatives a b) as [d3|e] end; cbn [bind];
    [|rewrite seq_cmd_raised with (1 := D3); reflexivity].
  destruct D3 as [f3 D3]. rewrite seq_cmd_returned with (1 := D3). cbn [app].
  rewrite seq_cmd_run, mul_scalar_cmd_run. cbv beta iota. grow. look Hps Hpm.
  rewrite seq_cmd_run, add_cmd_run. cbv beta iota. grow. look Hps Hpm.
  match goal with
  | |- context [seq_cmd (derivatives_cmd (length st + ?k) pm) _ (st ++ ?l)] =>
    pose proof (@derivatives_cmd_grown st l k pm ltac:(cbn [length]; lia) Hpm) as D4
  end.
  cbn [nth length Nat.add] in D4.
  match type of D4 with match derivatives ?a ?b with _ => _ end =>
    destruct (derivatives a b) as [d4|e] end; cbn [bind];
    [|rewrite seq_cmd_raised with (1 := D4); reflexivity].
  destruct D4 as [f4 D4]. rewrite seq_cmd_returned with (1 := D4). cbn [app].
  rewrite seq_cmd_run, mul_scalar_cmd_run. cbv beta iota. grow. look Hps Hpm.
  rewrite seq_cmd_run, scalar_mul_cmd_run. cbv beta iota. grow. look Hps Hpm.
  rewrite seq_cmd_run, add_cmd_run. cbv beta iota. grow. look Hps Hpm.
  rewrite seq_cmd_run, scalar_mul_cmd_run. cbv beta iota. grow. look Hps Hpm.
  rewrite seq_cmd_run, add_cmd_run. cbv beta iota. grow. look Hps Hpm.
  rewrite seq_cmd_run, add_cmd_run. cbv beta iota. grow. look Hps Hpm.
  rewrite seq_cmd_run, div_scalar_cmd_run. cbv beta iota. grow. look Hps Hpm.
  rewrite add_cmd_run. grow. look Hps Hpm.
  refine (ex_intro _ [_; _; _; _; _; _; _; _; _; _; _; _; _; _; _; _; _; _; _; _; _; _; _] _).
  reflexivity.
Qed.

(** The last object of a store that has grown. *)
Lemma sel_last (st l : store) (v : list F) :
  sel (length st + length l) (st ++ l ++ [v]) = v.
Proof. rewrite sel_app_new. apply nth_middle. Qed.

Lemma firstn_app_exact (st l : store (F := F)) : firstn (length st) (st ++ l) = st.
Proof.
  rewrite firstn_app, Nat.sub_diag, firstn_all. cbn [firstn]. apply app_nil_r.
Qed.

(** C6.  The step called on two array objects [state] and [masses] of any
    store.  When it returns, the object returned is a new one, it holds the
    entries [runge_kutta_step] computes from the entries of [state] and of
    [masses], and every object that existed, [state] and [masses] among
    them, holds what it held; the step called again in the store the first
    call has left returns an object with the same entries, and the first
    result is still what it was; and in any store whatever, on any two
    objects holding the entries of [state] and of [masses], it returns an
    object with the same entries.  When it raises, it raises the same
    exception in any such store. *)
Theorem step_deterministic (st : store) (state masses : ref) (dt : F) :
  state < length st -> masses < length st ->
  match runge_kutta_step_cmd state masses dt st with
  | Returned (out, st1) =>
      runge_kutta_step (sel state st) (sel masses st) dt = Returned (sel out st1) /\
      length st <= out < length st1 /\
      firstn (length st) st1 = st /\
      (exists out2 st2,
         runge_kutta_step_cmd state masses dt st1 = Returned (out2, st2) /\
         sel out2 st2 = sel out st1 /\ sel out st2 = sel out st1) /\
      (forall (st' : store) (state' masses' : ref),
         state' < length st' -> masses' < length st' ->
         sel state' st' = sel state st -> sel masses' st' = sel masses st ->
         exists out' st1',
           runge_kutta_step_cmd state' masses' dt st' = Returned (out', st1') /\
           sel out' st1' = sel out st1)
  | Raised e =>
      runge_kutta_step (sel state st) (sel masses st) dt = Raised e /\
      (forall (st' : store) (state' masses' : ref),
         state' < length st' -> masses' < length st' ->
         sel state' st' = sel state st -> sel masses' st' = sel masses st ->
         runge_kutta_step_cmd state' masses' dt st' = Raised e)
  end.
Proof.
  intros Hs Hm.
  assert (Hany : forall (st' : store) (state' masses' : ref),
             state' < length st' -> masses' < length st' ->
             sel state' st' = sel state st -> sel masses' st' = sel masses st ->
             match runge_kutta_step (sel state st) (sel masses st) dt with
             | Returned v =>
                 exists l,
                   runge_kutta_step_cmd state' masses' dt st'
                   = Returned (length st' + length l, st' ++ l ++ [v])
             | Raised e => runge_kutta_step_cmd state' masses' dt st' = Raised e
             end).
  { intros st' state' masses' Hs' Hm' Es Em.
    pose proof (runge_kutta_step_cmd_run st' dt Hs' Hm') as R.
    rewrite Es, Em in R. exact R. }
  pose proof (Hany st state masses Hs Hm eq_refl eq_refl) as R.
  destruct (runge_kutta_step (sel state st) (sel masses st) dt) as [v|e].
  - destruct R as [l R]. rewrite R.
    assert (Hin : forall p, p < length st -> sel p (st ++ l ++ [v]) = sel p st)
      by (intros p Hp; apply sel_app_old; exact Hp).
    split; [rewrite sel_last; reflexivity|].
    split; [rewrite !length_app; cbn [length]; lia|].
    split; [apply firstn_app_exact|].
    split.
    + assert (Hs1 : state < length (st ++ l ++ [v])) by (rewrite length_app; lia).
      assert (Hm1 : masses < length (st ++ l ++ [v])) by (rewrite length_app; lia).
      destruct (Hany (st ++ l ++ [v]) state masses Hs1 Hm1 (Hin _ Hs) (Hin _ Hm))
        as [l2 R2].
      eexists. eexists. split; [exact R2|].
      rewrite !sel_last. split; [reflexivity|].
      rewrite sel_app_old; [apply sel_last|].
      rewrite !length_app. cbn [length]. lia.
    + intros st' state' masses' Hs' Hm' Es Em.
      destruct (Hany st' state' masses' Hs' Hm' Es Em) as [l' R'].
      eexists. eexists. split; [exact R'|]. rewrite !sel_last. reflexivity.
  - rewrite R. split; [reflexivity|]. exact Hany.
Qed.

End StoreFacts.

(** ** The further properties on concrete inputs *)

Section FurtherExamples.

Import Samples MoreSamples.

(** C5 (amended) on two bodies of the program, at their initial positions. *)
Lemma third_law_binary64_initial :
  same_number
    (fst (gravitational_force (H := Binary64.ops) 1.989e30 1.989e30
            (1.496e11, 0) (-1.496e11, 0))%float)
    (fst (vneg (H := Binary64.ops)
            (gravitational_force (H := Binary64.ops) 1.989e30 1.989e30
               (-1.496e11, 0) (1.496e11, 0)))%float) /\
  same_number
    (snd (gravitational_force (H := Binary64.ops) 1.989e30 1.989e30
            (1.496e11, 0) (-1.496e11, 0))%float)
    (snd (vneg (H := Binary64.ops)
            (gravitational_force (H := Binary64.ops) 1.989e30 1.989e30
               (-1.496e11, 0) (1.496e11, 0)))%float).
Proof.
  apply (@third_law_binary64 Binary64.float_pow 1.989e30 1.989e30
           (1.496e11, 0) (-1.496e11, 0))%float.
  reflexivity.
Defined.

(** C6 on the initial state: the step, and the step once more in the store
    the first call has left. *)
Lemma step_deterministic_initial :
  exists out st1 out2 st2,
    runge_kutta_step_cmd (H := Binary64.ops) 0 1 2e4%float store0 = Returned (out, st1) /\
    runge_kutta_step (H := Binary64.ops) state0 masses0 2e4%float = Returned (sel out st1) /\
    firstn 2 st1 = store0 /\
    runge_kutta_step_cmd (H := Binary64.ops) 0 1 2e4%float st1 = Returned (out2, st2) /\
    sel out2 st2 = sel out st1.
Proof.
  pose proof (@step_deterministic float Binary64.ops store0 0 1 2e4%float
                ltac:(simpl; lia) ltac:(simpl; lia)) as T.
  destruct (runge_kutta_step_cmd (H := Binary64.ops) 0 1 2e4%float store0)
    as [[out st1]|e] eqn:E; [|vm_compute in E; discriminate E].
  destruct T as (Hpure & _ & Hframe & (out2 & st2 & E2 & Hsame & _) & _).
  exists out, st1, out2, st2.
  split; [reflexivity|]. split; [exact Hpure|]. split; [exact Hframe|].
  split; [exact E2|exact Hsame].
Defined.

(** X1 on the initial state: without its first entry, with two masses, with
    four masses, and as it is. *)
Lemma derivatives_shape_errors_examples :
  derivatives (H := Binary64.ops) (tl state0) masses0 = Raised ValueError /\
  derivatives (H := Binary64.ops) state0 (tl masses0) = Raised IndexError /\
  derivatives (H := Binary64.ops) state0 (1%float :: masses0) = Raised ValueError /\
  exists dydt, derivatives (H := Binary64.ops) state0 masses0 = Returned dydt.
Proof.
  split; [|split; [|split]].
  - apply (proj1 (@derivatives_shape_errors float Binary64.ops (tl state0) masses0)).
    simpl. lia.
  - apply (proj1 (proj2 (@derivatives_shape_errors float Binary64.ops state0 (tl masses0))));
      simpl; lia.
  - apply (proj1 (proj2 (proj2
             (@derivatives_shape_errors float Binary64.ops state0 (1%float :: masses0)))));
      simpl; lia.
  - apply (proj2 (proj2 (proj2 (@derivatives_shape_errors float Binary64.ops state0 masses0)))).
    split; reflexivity.
Defined.

(** X2 on the initial conditions of the program. *)
Lemma update_simulation_shapes_initial :
  exists r, update_simulation (H := Binary64.ops) state0 masses0 2e4%float = Returned r.
Proof.
  apply (proj1 (@update_simulation_shapes float Binary64.ops state0 masses0 2e4%float)).
  split; reflexivity.
Defined.

(** X3 on the initial positions and velocities of the program. *)
Lemma state_layout_round_trip_initial :
  length (pack_state positions0 velocities0) = 12 /\
  reshape_3_2 (firstn 6 (pack_state positions0 velocities0)) = Returned positions0 /\
  reshape_3_2 (skipn 6 (pack_state positions0 velocities0)) = Returned velocities0.
Proof.
  apply (proj1 (@state_layout_round_trip float) positions0 velocities0); reflexivity.
Defined.

(** X4 on the initial state and the same bodies at rest. *)
Lemma derivatives_reads_positions_at_rest :
  exists dydt dydt',
    derivatives (H := Binary64.ops) state0 masses0 = Returned dydt /\
    derivatives (H := Binary64.ops)
      (firstn 6 state0 ++ [0; 0; 0; 0; 0; 0]%float) masses0 = Returned dydt' /\
    skipn 6 dydt = skipn 6 dydt'.
Proof.
  apply (@derivatives_reads_positions float Binary64.ops); reflexivity.
Defined.

(** X10 on a frame with one trajectory longer than a bound of 1: its trail
    is drawn through its three entries, its oldest entry is dropped, and the
    two other trajectories are drawn no trail and left as they are. *)
Lemma draw_simulation_frame_example :
  exists st' xy0 xy1 xy2 l0 l1 l2,
    draw_simulation (H := Binary64.ops) frame_state three_positions 800 800 2e9%float 1
    = Returned st' /\
    to_screen_coords (H := Binary64.ops) (0, 0)%float 800 800 2e9%float = Returned xy0 /\
    to_screen_coords (H := Binary64.ops) (2e9, 0)%float 800 800 2e9%float = Returned xy1 /\
    to_screen_coords (H := Binary64.ops) (0, -4e9)%float 800 800 2e9%float = Returned xy2 /\
    trail_drawn (H := Binary64.ops) 800 800 2e9%float
      (Deque [(1, 1); (2, 2); (3, 3)]%float None) l0 /\
    trail_drawn (H := Binary64.ops) 800 800 2e9%float (Deque [(4, 4)]%float (Some 1)) l1 /\
    trail_drawn (H := Binary64.ops) 800 800 2e9%float (Deque [] (Some 1)) l2 /\
    st' = DrawState
            ([] ++ [Fill BLACK]
             ++ l0 ++ [Circle GREEN xy0 7%Z]
             ++ l1 ++ [Circle RED xy1 7%Z]
             ++ l2 ++ [Circle AQUA xy2 7%Z]
             ++ [Flip])
            [Deque [(2, 2); (3, 3)]%float None; Deque [(4, 4)]%float (Some 1);
             Deque [] (Some 1)]
            1.
Proof.
  eexists. 
  assert (E : draw_simulation (H := Binary64.ops) frame_state three_positions 800 800
                2e9%float 1
              = Returned
                  (DrawState
                     [Fill BLACK;
                      Lines GREY false [(400, 400); (400, 400); (400, 400)]%Z 1%Z;
                      Circle GREEN (400, 400)%Z 7%Z;
                      Circle RED (401, 400)%Z 7%Z;
                      Circle AQUA (400, 402)%Z 7%Z;
                      Flip]
                     [Deque [(2, 2); (3, 3)]%float None; Deque [(4, 4)]%float (Some 1);
                      Deque [] (Some 1)]
                     1)) by (vm_compute; reflexivity).
  destruct (@draw_simulation_frame float Binary64.ops frame_state _
              (0, 0)%float (2e9, 0)%float (0, -4e9)%float
              (Deque [(1, 1); (2, 2); (3, 3)]%float None)
              (Deque [(4, 4)]%float (Some 1)) (Deque [] (Some 1))
              800%Z 800%Z 2e9%float 1 eq_refl E)
    as (xy0 & xy1 & xy2 & l0 & l1 & l2 & C0 & C1 & C2 & L0 & L1 & L2 & Est).
  exists xy0, xy1, xy2, l0, l1, l2.
  split; [exact E|]. repeat (split; [assumption|]). exact Est.
Defined.

(** X11 on three iterations of the loop with [max_orbit_length = 2]. *)
Lemma main_loop_history_run :
  exists w,
    iterate (H := Binary64.ops) (fst (@main_setup float Binary64.ops 2)) 3
      (snd (@main_setup float Binary64.ops 2)) = Returned w /\
    exists states t0 t1 t2,
      orbit (H := Binary64.ops) (c_masses (fst (@main_setup float Binary64.ops 2)))
        (c_dt (fst (@main_setup float Binary64.ops 2))) 3
        (w_state (snd (@main_setup float Binary64.ops 2))) = Returned states /\
      length states = 3 /\
      w_state w = last states (w_state (snd (@main_setup float Binary64.ops 2))) /\
      ds_trajectories (w_draw w) = [t0; t1; t2] /\
      items t0 = lastn 2 (map (fun s => position_of (H := Binary64.ops) s 0) states) /\
      items t1 = lastn 2 (map (fun s => position_of (H := Binary64.ops) s 1) states) /\
      items t2 = lastn 2 (map (fun s => position_of (H := Binary64.ops) s 2) states) /\
      Forall (fun t => deque_len t = Nat.min 3 2) [t0; t1; t2].
Proof.
  eexists. split; [vm_compute; reflexivity|].
  apply (@main_loop_history float Binary64.ops 2 3).
  vm_compute. reflexivity.
Defined.

(** X12 on three iterations of the loop with [max_orbit_length = 2]. *)
Lemma main_loop_steps_return_run :
  exists w,
    iterate (H := Binary64.ops) (fst (@main_setup float Binary64.ops 2)) 3
      (snd (@main_setup float Binary64.ops 2)) = Returned w /\
    length (w_state w) = 12 /\
    length (ds_trajectories (w_draw w)) = 3 /\
    (exists new_state positions trajs,
       update_simulation (H := Binary64.ops) (w_state w)
         (c_masses (fst (@main_setup float Binary64.ops 2)))
         (c_dt (fst (@main_setup float Binary64.ops 2)))
       = Returned (new_state, positions) /\
       length positions = 3 /\
       append_positions positions (ds_trajectories (w_draw w)) = Returned trajs /\
       length trajs = 3) /\
    (forall t : deque (float * float),
       evict_if_longer (c_max_orbit_length (fst (@main_setup float Binary64.ops 2))) t
       = Returned (evicted_once
                     (c_max_orbit_length (fst (@main_setup float Binary64.ops 2))) t,
                   c_max_orbit_length (fst (@main_setup float Binary64.ops 2))
                   <? deque_len t)).
Proof.
  eexists. split; [vm_compute; reflexivity|].
  apply (@main_loop_steps_return float Binary64.ops
           (fst (@main_setup float Binary64.ops 2)) 3
           (snd (@main_setup float Binary64.ops 2)));
    [reflexivity|reflexivity|reflexivity|vm_compute; reflexivity].
Defined.

(** X15 with [SCALE = 0], and with the [SCALE] of [main]. *)
Lemma to_screen_coords_zero_scale :
  (exists e,
     to_screen_coords (H := Binary64.ops) (1.496e11, 0)%float 800 800 0%float = Raised e) /\
  to_screen_coords (H := Binary64.ops) (0, 0)%float 800 800 2e9%float
  = Returned (800 / 2, 800 / 2)%Z.
Proof.
  split.
  - apply (proj1 (proj2 (proj2
             (@to_screen_coords_outcomes (1.496e11, 0)%float 800 800 0%float)))).
    reflexivity.
  - apply (proj2 (proj2 (proj2
             (@to_screen_coords_outcomes (0, 0)%float 800 800 2e9%float))));
      reflexivity.
Defined.

End FurtherExamples.
